(** * CASL II assembler / COMET II emulator (Go edition): a shallow embedding

    The development follows the Go sources of the repository:
    - [main.go]      constants, [signed], [unsigned], [getFlag], [memGet], [memPut];
    - [emulator.go]  [COMET2TBL], [parse], [execOut], [stepExec];
    - [lexer.go]     the lexer and [ParseLine];
    - [assembler.go] [pass1], [pass2], [expandLabel] and the code generators;
    - [dap.go]       [findAddressForLine], [handleSetBreakpoints].

    Go's [int] is modelled as [Z] with the 64-bit wrap-around written out,
    a [[]uint16] as a [list Z] of words, a [[]int] as a [list Z], Go maps as
    [gmap], strings as [string] (a sequence of bytes).  A Go run-time panic is
    an explicit outcome of the computation monad [Go]. *)

From Stdlib Require Import ZArith String Ascii List Lia Bool.
From stdpp Require Import base option list gmap strings sorting.

Local Open Scope Z_scope.

(** ** Go run-time model *)

(** A computation either returns normally or panics (the process aborts). *)
Inductive Go (A : Type) : Type :=
| Ok (a : A)
| Panic (reason : string).
Arguments Ok {A} a.
Arguments Panic {A} reason.

#[export] Instance Go_ret : MRet Go := fun A a => Ok a.
#[export] Instance Go_bind : MBind Go := fun A B f c =>
  match c with
  | Ok a => f a
  | Panic r => Panic r
  end.

Definition returns {A : Type} (c : Go A) : Prop := exists a, c = Ok a.
Definition panics {A : Type} (c : Go A) : Prop := exists r, c = Panic r.

(** Go's [int] on the supported platforms is a 64-bit two's complement
    integer. *)
Definition wrap64 (z : Z) : Z := (z + 2 ^ 63) mod 2 ^ 64 - 2 ^ 63.
Definition int64 (z : Z) : Prop := - 2 ^ 63 <= z < 2 ^ 63.

Definition add64 (a b : Z) : Z := wrap64 (a + b).
Definition sub64 (a b : Z) : Z := wrap64 (a - b).
Definition mul64 (a b : Z) : Z := wrap64 (a * b).
(** [/] truncates toward zero; the divisor is never zero where it is used. *)
Definition quo64 (a b : Z) : Z := wrap64 (Z.quot a b).

(** [x << n] and [x >> n] with a signed shift count: a negative count
    panics at run time, a count of 64 or more shifts everything out. *)
Definition shl64 (x n : Z) : Go Z :=
  if n <? 0 then Panic "negative shift amount" else Ok (wrap64 (Z.shiftl x n)).
Definition shr64 (x n : Z) : Go Z :=
  if n <? 0 then Panic "negative shift amount" else Ok (Z.shiftr x n).

(** Indexing a slice: out of range panics. *)
Definition index (s : list Z) (i : Z) : Go Z :=
  if (0 <=? i) && (i <? Z.of_nat (length s)) then
    match s !! Z.to_nat i with
    | Some v => Ok v
    | None => Panic "index out of range"
    end
  else Panic "index out of range".

Definition assign (s : list Z) (i v : Z) : Go (list Z) :=
  if (0 <=? i) && (i <? Z.of_nat (length s)) then Ok (<[Z.to_nat i := v]> s)
  else Panic "index out of range".

(** ** main.go: constants and utility functions *)

Definition SYS_IN : Z := 0xfff0.
Definition SYS_OUT : Z := 0xfff2.
Definition EXIT_USR : Z := 0.
Definition EXIT_OVF : Z := 1.
Definition EXIT_DVZ : Z := 2.
Definition EXIT_ROV : Z := 3.

Definition FR_PLUS : Z := 0.
Definition FR_ZERO : Z := 1.
Definition FR_MINUS : Z := 2.
Definition FR_OVER : Z := 4.

Definition STACK_TOP : Z := 0xff00.

Definition PC : Z := 0.
Definition FR : Z := 1.
Definition GR0 : Z := 2.
Definition GR1 : Z := 3.
Definition GR2 : Z := 4.
Definition GR7 : Z := 9.
Definition SP : Z := 10.

Definition MAX_SIGNED : Z := 32767.
Definition MIN_SIGNED : Z := -32768.

Definition INPUT_MODE_CMD : Z := 0.
Definition INPUT_MODE_IN : Z := 1.

Inductive InstructionType : Type :=
| OP1 | OP2 | OP3 | OP4 | OP5 | START | END | DS | DC | IN | OUT | RPUSH | RPOP.

Definition signed (val : Z) : Z :=
  if (32768 <=? val) && (val <? 65536) then val - 65536 else val.

Definition unsigned (val : Z) : Z :=
  if (-32768 <=? val) && (val <? 0) then val + 65536 else val.

Definition getFlag (val : Z) : Z :=
  if negb (Z.land val 0x8000 =? 0) then FR_MINUS
  else if val =? 0 then FR_ZERO
  else FR_PLUS.

Definition memGet (memory : list Z) (pc : Z) : Z :=
  if (pc <? 0) || (Z.of_nat (length memory) <=? pc) then 0
  else default 0 (memory !! Z.to_nat pc).

(** The growing loop of [memPut] returns at once when [pc] is past the end,
    so an out-of-range store is dropped. *)
Definition memPut (memory : list Z) (pc val : Z) : list Z :=
  if pc <? 0 then memory
  else if Z.of_nat (length memory) <=? pc then memory
  else <[Z.to_nat pc := Z.land val 0xffff]> memory.

(** [fmt.Sprintf("%d", v)] and [fmt.Sprintf("%0<n>x", v)]. *)
Definition digitChar (d : Z) : ascii :=
  nth (Z.to_nat d)
    ["0"; "1"; "2"; "3"; "4"; "5"; "6"; "7"; "8"; "9";
     "a"; "b"; "c"; "d"; "e"; "f"]%char "0"%char.

Fixpoint digitsOf (fuel : nat) (base v : Z) (acc : string) : string :=
  match fuel with
  | O => acc
  | S fuel' =>
      let acc' := String (digitChar (v mod base)) acc in
      if v / base =? 0 then acc' else digitsOf fuel' base (v / base) acc'
  end.

Definition natural (base v : Z) : string :=
  digitsOf (S (Z.to_nat (Z.log2 v))) base v EmptyString.

Definition itoa (v : Z) : string :=
  if v <? 0 then String "-" (natural 10 (- v)) else natural 10 v.

Fixpoint zeroPad (n : nat) (s : string) : string :=
  match n with
  | O => s
  | S n' => String "0" (zeroPad n' s)
  end.

Definition hex (val : Z) (len : nat) : string :=
  if val <? 0 then
    let d := natural 16 (- val) in
    String "-" (zeroPad (len - 1 - String.length d) d)
  else
    let d := natural 16 val in
    zeroPad (len - String.length d) d.


(** ** emulator.go: the COMET II instruction table and the disassembler *)

Definition COMET2TBL (inst : Z) : option (string * InstructionType) :=
  if inst =? 0x00 then Some ("NOP", OP4)
  else if inst =? 0x10 then Some ("LD", OP1)
  else if inst =? 0x11 then Some ("ST", OP1)
  else if inst =? 0x12 then Some ("LAD", OP1)
  else if inst =? 0x14 then Some ("LD", OP5)
  else if inst =? 0x20 then Some ("ADDA", OP1)
  else if inst =? 0x21 then Some ("SUBA", OP1)
  else if inst =? 0x22 then Some ("ADDL", OP1)
  else if inst =? 0x23 then Some ("SUBL", OP1)
  else if inst =? 0x24 then Some ("ADDA", OP5)
  else if inst =? 0x25 then Some ("SUBA", OP5)
  else if inst =? 0x26 then Some ("ADDL", OP5)
  else if inst =? 0x27 then Some ("SUBL", OP5)
  else if inst =? 0x28 then Some ("MULA", OP1)
  else if inst =? 0x29 then Some ("DIVA", OP1)
  else if inst =? 0x2a then Some ("MULL", OP1)
  else if inst =? 0x2b then Some ("DIVL", OP1)
  else if inst =? 0x2c then Some ("MULA", OP5)
  else if inst =? 0x2d then Some ("DIVA", OP5)
  else if inst =? 0x2e then Some ("MULL", OP5)
  else if inst =? 0x2f then Some ("DIVL", OP5)
  else if inst =? 0x30 then Some ("AND", OP1)
  else if inst =? 0x31 then Some ("OR", OP1)
  else if inst =? 0x32 then Some ("XOR", OP1)
  else if inst =? 0x34 then Some ("AND", OP5)
  else if inst =? 0x35 then Some ("OR", OP5)
  else if inst =? 0x36 then Some ("XOR", OP5)
  else if inst =? 0x40 then Some ("CPA", OP1)
  else if inst =? 0x41 then Some ("CPL", OP1)
  else if inst =? 0x44 then Some ("CPA", OP5)
  else if inst =? 0x45 then Some ("CPL", OP5)
  else if inst =? 0x50 then Some ("SLA", OP1)
  else if inst =? 0x51 then Some ("SRA", OP1)
  else if inst =? 0x52 then Some ("SLL", OP1)
  else if inst =? 0x53 then Some ("SRL", OP1)
  else if inst =? 0x61 then Some ("JMI", OP2)
  else if inst =? 0x62 then Some ("JNZ", OP2)
  else if inst =? 0x63 then Some ("JZE", OP2)
  else if inst =? 0x64 then Some ("JUMP", OP2)
  else if inst =? 0x65 then Some ("JPL", OP2)
  else if inst =? 0x66 then Some ("JOV", OP2)
  else if inst =? 0x70 then Some ("PUSH", OP2)
  else if inst =? 0x71 then Some ("POP", OP3)
  else if inst =? 0x80 then Some ("CALL", OP2)
  else if inst =? 0x81 then Some ("RET", OP4)
  else if inst =? 0xf0 then Some ("SVC", OP2)
  else None.

(** [parse]: mnemonic, operand text and size of the instruction at PC. *)
Definition parse (memory state : list Z) : Go (string * string * Z) :=
  pc ← index state PC;
  let inst := Z.shiftr (memGet memory pc) 8 in
  let gr := Z.land (Z.shiftr (memGet memory pc) 4) 0xf in
  let xr := Z.land (memGet memory pc) 0xf in
  let adr := memGet memory (add64 pc 1) in
  match COMET2TBL inst with
  | Some (instSym, instType) =>
      match instType with
      | OP1 =>
          let oprSym := "GR" +:+ itoa gr +:+ ",   #" +:+ hex adr 4 in
          let oprSym := if 0 <? xr then oprSym +:+ ", GR" +:+ itoa xr else oprSym in
          Ok (instSym, oprSym, 2)
      | OP2 =>
          let oprSym := "#" +:+ hex adr 4 in
          let oprSym := if 0 <? xr then oprSym +:+ ", GR" +:+ itoa xr else oprSym in
          Ok (instSym, oprSym, 2)
      | OP3 => Ok (instSym, "GR" +:+ itoa gr, 1)
      | OP4 => Ok (instSym, "", 1)
      | OP5 => Ok (instSym, "GR" +:+ itoa gr +:+ ", GR" +:+ itoa xr, 1)
      | _ => Ok (instSym, "#" +:+ hex (memGet memory pc) 4, 1)
      end
  | None => Ok ("DC", "#" +:+ hex (memGet memory pc) 4, 1)
  end.

(** The regular expression [GR[0-7], GR[0-7]] of [stepExec]; [MatchString]
    reports a match anywhere in the text. *)
Definition octal (c : ascii) : bool :=
  (N_of_ascii "0" <=? N_of_ascii c)%N && (N_of_ascii c <=? N_of_ascii "7")%N.

Definition grIsGr_here (s : string) : bool :=
  match s with
  | String c0 (String c1 (String c2 (String c3 (String c4
      (String c5 (String c6 (String c7 _))))))) =>
      Ascii.eqb c0 "G" && Ascii.eqb c1 "R" && octal c2 && Ascii.eqb c3 ","
      && Ascii.eqb c4 " " && Ascii.eqb c5 "G" && Ascii.eqb c6 "R" && octal c7
  | _ => false
  end.

Fixpoint grIsGr_MatchString (s : string) : bool :=
  grIsGr_here s ||
  match s with
  | EmptyString => false
  | String _ s' => grIsGr_MatchString s'
  end.

(** ** emulator.go: the machine and one step of execution *)

(** What [stepExec] reads and writes: the memory image, the register file
    [state] (PC, FR, GR0..GR7, SP), the global [inputMode], and the text
    printed on standard output (colour escapes left out). *)
Record Machine : Type := mkMachine {
  memory : list Z;
  state : list Z;
  inputMode : Z;
  stdout : list string
}.

Definition with_memory (m : Machine) (mem : list Z) : Machine :=
  mkMachine mem (state m) (inputMode m) (stdout m).
Definition with_state (m : Machine) (st : list Z) : Machine :=
  mkMachine (memory m) st (inputMode m) (stdout m).
Definition with_inputMode (m : Machine) (im : Z) : Machine :=
  mkMachine (memory m) (state m) im (stdout m).
Definition println (m : Machine) (line : string) : Machine :=
  mkMachine (memory m) (state m) (inputMode m) (stdout m ++ [line]).

(** The error values [stepExec] returns ([fmt.Errorf] texts), by kind. *)
Inductive Termination : Type :=
| StackOverflow (pc sp : Z)
| StackUnderflow (pc sp : Z)
| ProgramFinishedRET
| ProgramFinishedSVC (code : Z)
| IllegalInstruction (inst : string) (pc : Z).

(** [regs := state[GR0 : GR7+1]] is a slice of [state]: it has eight
    elements and shares its storage, so [regs[i]] is [state[GR0+i]] and a
    store to [regs[i]] is seen in [state] at once. *)
Definition regs_get (m : Machine) (i : Z) : Go Z :=
  if (0 <=? i) && (i <? 8) then index (state m) (GR0 + i)
  else Panic "index out of range".

Definition regs_set (m : Machine) (i v : Z) : Go Machine :=
  if (0 <=? i) && (i <? 8) then
    st ← assign (state m) (GR0 + i) v; Ok (with_state m st)
  else Panic "index out of range".

Definition regs_upd (m : Machine) (i : Z) (f : Z -> Z) : Go Machine :=
  r ← regs_get m i; regs_set m i (f r).

(** How a [case] of the [switch] ends: it falls out of the switch to the
    common state update, or returns an error from inside. *)
Inductive Flow : Type :=
| Fall (pc fr sp : Z) (stopFlag : bool) (m : Machine)
| Leave (err : Termination) (m : Machine).

Definition mask16 (r : Z) : Z := Z.land r 0xffff.

(** [ofr1], [ofr2]: the two range tests that follow an arithmetic operation. *)
Definition rangeFlags (lo hi : Z) (m : Machine) (gr : Z) : Go (Z * Z) :=
  r ← regs_get m gr;
  Ok (if hi <? r then FR_OVER else 0, if r <? lo then FR_OVER else 0).

Definition flagsOf (m : Machine) (gr : Z) (ofr : Z * Z) : Go Z :=
  r ← regs_get m gr; Ok (Z.lor (Z.lor (getFlag r) (fst ofr)) (snd ofr)).

(** ADDA, SUBA and MULA differ by the operator only. *)
Definition execArithA (op : Z -> Z -> Z) (regreg : bool)
    (m : Machine) (gr xr eadr pc sp : Z) : Go Flow :=
  if negb regreg then
    m ← regs_upd m gr signed;
    m ← regs_upd m gr (fun r => op r (memGet (memory m) eadr));
    ofr ← rangeFlags MIN_SIGNED MAX_SIGNED m gr;
    m ← regs_upd m gr mask16;
    fr ← flagsOf m gr ofr;
    Ok (Fall (add64 pc 2) fr sp false m)
  else
    m ← regs_upd m gr signed;
    m ← regs_upd m xr signed;
    x ← regs_get m xr;
    m ← regs_upd m gr (fun r => op r x);
    ofr ← rangeFlags MIN_SIGNED MAX_SIGNED m gr;
    m ← regs_upd m gr mask16;
    m ← regs_upd m xr mask16;
    fr ← flagsOf m gr ofr;
    Ok (Fall (add64 pc 1) fr sp false m).

(** ADDL, SUBL and MULL; only MULL masks [regs[xr]] in the register form. *)
Definition execArithL (op : Z -> Z -> Z) (maskx : bool) (regreg : bool)
    (m : Machine) (gr xr eadr pc sp : Z) : Go Flow :=
  if negb regreg then
    m ← regs_upd m gr (fun r => op r (memGet (memory m) eadr));
    ofr ← rangeFlags 0 0xffff m gr;
    m ← regs_upd m gr mask16;
    fr ← flagsOf m gr ofr;
    Ok (Fall (add64 pc 2) fr sp false m)
  else
    _ ← regs_get m gr;
    x ← regs_get m xr;
    m ← regs_upd m gr (fun r => op r x);
    ofr ← rangeFlags 0 0xffff m gr;
    m ← regs_upd m gr mask16;
    m ← (if maskx then regs_upd m xr mask16 else Ok m);
    fr ← flagsOf m gr ofr;
    Ok (Fall (add64 pc 1) fr sp false m).

Definition execDIVA (regreg : bool) (m : Machine) (gr xr eadr pc sp : Z) : Go Flow :=
  if negb regreg then
    m ← regs_upd m gr signed;
    let d := memGet (memory m) eadr in
    if d =? 0 then
      let m := println m "Error: Division by zero in DIVA." in
      Ok (Fall (add64 pc 2) (Z.lor FR_OVER FR_ZERO) sp false m)
    else
      m ← regs_upd m gr (fun r => quo64 r d);
      ofr ← rangeFlags MIN_SIGNED MAX_SIGNED m gr;
      m ← regs_upd m gr mask16;
      fr ← flagsOf m gr ofr;
      Ok (Fall (add64 pc 2) fr sp false m)
  else
    m ← regs_upd m gr signed;
    m ← regs_upd m xr signed;
    x ← regs_get m xr;
    if x =? 0 then
      let m := println m "Error: Division by zero in DIVA." in
      Ok (Fall (add64 pc 1) (Z.lor FR_OVER FR_ZERO) sp false m)
    else
      m ← regs_upd m gr (fun r => quo64 r x);
      ofr ← rangeFlags MIN_SIGNED MAX_SIGNED m gr;
      m ← regs_upd m gr mask16;
      m ← regs_upd m xr mask16;
      fr ← flagsOf m gr ofr;
      Ok (Fall (add64 pc 1) fr sp false m).

Definition execDIVL (regreg : bool) (m : Machine) (gr xr eadr pc sp : Z) : Go Flow :=
  if negb regreg then
    let d := memGet (memory m) eadr in
    if d =? 0 then
      let m := println m "Error: Division by zero in DIVL." in
      Ok (Fall (add64 pc 2) (Z.lor FR_OVER FR_ZERO) sp false m)
    else
      m ← regs_upd m gr (fun r => quo64 r d);
      ofr ← rangeFlags 0 0xffff m gr;
      m ← regs_upd m gr mask16;
      fr ← flagsOf m gr ofr;
      Ok (Fall (add64 pc 2) fr sp false m)
  else
    x ← regs_get m xr;
    if x =? 0 then
      let m := println m "Error: Division by zero in DIVL." in
      Ok (Fall (add64 pc 1) (Z.lor FR_OVER FR_ZERO) sp false m)
    else
      m ← regs_upd m gr (fun r => quo64 r x);
      ofr ← rangeFlags 0 0xffff m gr;
      m ← regs_upd m gr mask16;
      m ← regs_upd m xr mask16;
      fr ← flagsOf m gr ofr;
      Ok (Fall (add64 pc 1) fr sp false m).

(** LD and the bitwise AND, OR, XOR. *)
Definition execLD (regreg : bool) (m : Machine) (gr xr eadr pc sp : Z) : Go Flow :=
  if negb regreg then
    m ← regs_set m gr (memGet (memory m) eadr);
    r ← regs_get m gr;
    Ok (Fall (add64 pc 2) (getFlag r) sp false m)
  else
    x ← regs_get m xr;
    m ← regs_set m gr x;
    r ← regs_get m gr;
    Ok (Fall (add64 pc 1) (getFlag r) sp false m).

Definition execBitwise (op : Z -> Z -> Z) (regreg : bool)
    (m : Machine) (gr xr eadr pc sp : Z) : Go Flow :=
  if negb regreg then
    m ← regs_upd m gr (fun r => op r (memGet (memory m) eadr));
    r ← regs_get m gr;
    Ok (Fall (add64 pc 2) (getFlag r) sp false m)
  else
    _ ← regs_get m gr;
    x ← regs_get m xr;
    m ← regs_upd m gr (fun r => op r x);
    r ← regs_get m gr;
    Ok (Fall (add64 pc 1) (getFlag r) sp false m).

Definition clamp (val : Z) : Z :=
  let val := if MAX_SIGNED <? val then MAX_SIGNED else val in
  if val <? MIN_SIGNED then MIN_SIGNED else val.

Definition execCPA (regreg : bool) (m : Machine) (gr xr eadr pc sp : Z) : Go Flow :=
  if negb regreg then
    r ← regs_get m gr;
    let val := clamp (sub64 (signed r) (signed (memGet (memory m) eadr))) in
    Ok (Fall (add64 pc 2) (getFlag (unsigned val)) sp false m)
  else
    r ← regs_get m gr;
    x ← regs_get m xr;
    let val := clamp (sub64 (signed r) (signed x)) in
    Ok (Fall (add64 pc 1) (getFlag (unsigned val)) sp false m).

Definition execCPL (regreg : bool) (m : Machine) (gr xr eadr pc sp : Z) : Go Flow :=
  if negb regreg then
    r ← regs_get m gr;
    let val := clamp (sub64 r (memGet (memory m) eadr)) in
    Ok (Fall (add64 pc 2) (getFlag (unsigned val)) sp false m)
  else
    r ← regs_get m gr;
    x ← regs_get m xr;
    let val := clamp (sub64 r x) in
    Ok (Fall (add64 pc 1) (getFlag (unsigned val)) sp false m).

(** The shift instructions; [eadr] is the shift count. *)
Definition execSLA (m : Machine) (gr eadr pc sp : Z) : Go Flow :=
  r ← regs_get m gr;
  let val := Z.land r 0x8000 in
  s ← shl64 r eadr;
  m ← regs_set m gr s;
  r ← regs_get m gr;
  let ofr := Z.land r 0x8000 in
  let ofr := Z.shiftr ofr 13 in
  m ← regs_upd m gr (fun r => Z.lor r val);
  m ← regs_upd m gr mask16;
  r ← regs_get m gr;
  Ok (Fall (add64 pc 2) (Z.lor (getFlag r) ofr) sp false m).

Definition execSRA (m : Machine) (gr eadr pc sp : Z) : Go Flow :=
  val ← regs_get m gr;
  bit ← shl64 0x0001 (sub64 eadr 1);
  let ofr := Z.land val bit in
  ofr ← shl64 ofr (sub64 2 (sub64 eadr 1));
  val ← (if negb (Z.land val 0x8000 =? 0) then
           let val := Z.land val 0x7fff in
           val ← shr64 val eadr;
           fill ← shr64 0x7fff eadr;
           Ok (add64 val (Z.lxor fill 0xffff))
         else shr64 val eadr);
  m ← regs_set m gr val;
  r ← regs_get m gr;
  Ok (Fall (add64 pc 2) (Z.lor (getFlag r) ofr) sp false m).

Definition execSLL (m : Machine) (gr eadr pc sp : Z) : Go Flow :=
  r ← regs_get m gr;
  s ← shl64 r eadr;
  m ← regs_set m gr s;
  r ← regs_get m gr;
  let ofr := Z.land r 0x10000 in
  let ofr := Z.shiftr ofr 14 in
  m ← regs_upd m gr mask16;
  r ← regs_get m gr;
  Ok (Fall (add64 pc 2) (Z.lor (getFlag r) ofr) sp false m).

Definition execSRL (m : Machine) (gr eadr pc sp : Z) : Go Flow :=
  r ← regs_get m gr;
  bit ← shl64 0x0001 (sub64 eadr 1);
  let ofr := Z.land r bit in
  ofr ← shl64 ofr (sub64 2 (sub64 eadr 1));
  s ← shr64 r eadr;
  m ← regs_set m gr s;
  r ← regs_get m gr;
  Ok (Fall (add64 pc 2) (Z.lor (getFlag r) ofr) sp false m).

(** [execOut]: the text of an OUT system call as [cometOut] prints it, a
    newline added when the text does not end in one; the [OUT>] prompt
    before it is left out. *)
Definition byteOf (w : Z) : ascii := ascii_of_N (Z.to_N (Z.land w 0xff)).

Fixpoint hasNewlineSuffix (s : string) : bool :=
  match s with
  | EmptyString => false
  | String c EmptyString => Ascii.eqb c "010"
  | String _ s' => hasNewlineSuffix s'
  end.

Definition execOut (m : Machine) : Go Machine :=
  lenp ← index (state m) GR2;
  bufp ← index (state m) GR1;
  let length := memGet (memory m) lenp in
  let outstr :=
    string_of_list_ascii
      (map (fun i => byteOf (memGet (memory m) (add64 bufp (Z.of_nat i))))
           (seq 0 (Z.to_nat length))) in
  let msg := if hasNewlineSuffix outstr then outstr else outstr +:+ String "010" EmptyString in
  Ok (println m msg).

(** The effective address: the address word plus the index register when
    the [xr] field names one of GR1..GR7, cut to 16 bits. *)
Definition effectiveAddress (m : Machine) (xr adr : Z) : Go Z :=
  eadr ← (if (1 <=? xr) && (xr <=? 7) then x ← regs_get m xr; Ok (add64 adr x) else Ok adr);
  Ok (Z.land eadr 0xffff).

(** The [switch inst] of [stepExec]. *)
Definition execute (addressMax : Z) (inst : string) (regreg : bool)
    (m : Machine) (gr xr eadr pc fr sp : Z) : Go Flow :=
  if String.eqb inst "LD" then execLD regreg m gr xr eadr pc sp
  else if String.eqb inst "ST" then
    r ← regs_get m gr;
    Ok (Fall (add64 pc 2) fr sp false (with_memory m (memPut (memory m) eadr r)))
  else if String.eqb inst "LAD" then
    m ← regs_set m gr eadr;
    Ok (Fall (add64 pc 2) fr sp false m)
  else if String.eqb inst "ADDA" then execArithA add64 regreg m gr xr eadr pc sp
  else if String.eqb inst "SUBA" then execArithA sub64 regreg m gr xr eadr pc sp
  else if String.eqb inst "ADDL" then execArithL add64 false regreg m gr xr eadr pc sp
  else if String.eqb inst "SUBL" then execArithL sub64 false regreg m gr xr eadr pc sp
  else if String.eqb inst "MULA" then execArithA mul64 regreg m gr xr eadr pc sp
  else if String.eqb inst "MULL" then execArithL mul64 true regreg m gr xr eadr pc sp
  else if String.eqb inst "DIVA" then execDIVA regreg m gr xr eadr pc sp
  else if String.eqb inst "DIVL" then execDIVL regreg m gr xr eadr pc sp
  else if String.eqb inst "AND" then execBitwise Z.land regreg m gr xr eadr pc sp
  else if String.eqb inst "OR" then execBitwise Z.lor regreg m gr xr eadr pc sp
  else if String.eqb inst "XOR" then execBitwise Z.lxor regreg m gr xr eadr pc sp
  else if String.eqb inst "CPA" then execCPA regreg m gr xr eadr pc sp
  else if String.eqb inst "CPL" then execCPL regreg m gr xr eadr pc sp
  else if String.eqb inst "SLA" then execSLA m gr eadr pc sp
  else if String.eqb inst "SRA" then execSRA m gr eadr pc sp
  else if String.eqb inst "SLL" then execSLL m gr eadr pc sp
  else if String.eqb inst "SRL" then execSRL m gr eadr pc sp
  else if String.eqb inst "JMI" then
    Ok (Fall (if Z.land fr FR_MINUS =? FR_MINUS then eadr else add64 pc 2) fr sp false m)
  else if String.eqb inst "JNZ" then
    Ok (Fall (if negb (Z.land fr FR_ZERO =? FR_ZERO) then eadr else add64 pc 2) fr sp false m)
  else if String.eqb inst "JZE" then
    Ok (Fall (if Z.land fr FR_ZERO =? FR_ZERO then eadr else add64 pc 2) fr sp false m)
  else if String.eqb inst "JUMP" then
    Ok (Fall eadr fr sp false m)
  else if String.eqb inst "JPL" then
    Ok (Fall (if negb (Z.land fr FR_MINUS =? FR_MINUS) && negb (Z.land fr FR_ZERO =? FR_ZERO)
              then eadr else add64 pc 2) fr sp false m)
  else if String.eqb inst "JOV" then
    Ok (Fall (if negb (Z.land fr FR_OVER =? 0) then eadr else add64 pc 2) fr sp false m)
  else if String.eqb inst "PUSH" then
    let sp := sub64 sp 1 in
    if sp <=? addressMax then Ok (Leave (StackOverflow pc sp) m)
    else Ok (Fall (add64 pc 2) fr sp false (with_memory m (memPut (memory m) sp eadr)))
  else if String.eqb inst "POP" then
    m ← regs_set m gr (memGet (memory m) sp);
    let sp := add64 sp 1 in
    if STACK_TOP <? sp then Ok (Leave (StackUnderflow pc sp) m)
    else Ok (Fall (add64 pc 1) fr sp false m)
  else if String.eqb inst "CALL" then
    let sp := sub64 sp 1 in
    if sp <=? addressMax then Ok (Leave (StackOverflow pc sp) m)
    else Ok (Fall eadr fr sp false (with_memory m (memPut (memory m) sp (add64 pc 2))))
  else if String.eqb inst "RET" then
    let pc := memGet (memory m) sp in
    let sp := add64 sp 1 in
    if STACK_TOP <? sp then Ok (Leave ProgramFinishedRET m)
    else Ok (Fall pc fr sp false m)
  else if String.eqb inst "SVC" then
    if eadr =? SYS_IN then Ok (Fall pc fr sp true (with_inputMode m INPUT_MODE_IN))
    else if eadr =? SYS_OUT then m ← execOut m; Ok (Fall (add64 pc 2) fr sp false m)
    else if eadr =? EXIT_USR then Ok (Leave (ProgramFinishedSVC EXIT_USR) m)
    else if eadr =? EXIT_OVF then Ok (Leave (ProgramFinishedSVC EXIT_OVF) m)
    else if eadr =? EXIT_DVZ then Ok (Leave (ProgramFinishedSVC EXIT_DVZ) m)
    else if eadr =? EXIT_ROV then Ok (Leave (ProgramFinishedSVC EXIT_ROV) m)
    else Ok (Fall pc fr sp false m)
  else if String.eqb inst "NOP" then Ok (Fall (add64 pc 1) fr sp false m)
  else Ok (Leave (IllegalInstruction inst pc) m).

(** The end of [stepExec]: an error returned from inside the switch leaves
    PC, FR and SP as they were; otherwise they are written back. *)
Definition commit (flow : Flow) : Go (bool * option Termination * Machine) :=
  match flow with
  | Leave err m => Ok (false, Some err, m)
  | Fall pc fr sp stopFlag m =>
      st ← assign (state m) PC pc;
      st ← assign st FR fr;
      st ← assign st SP sp;
      (* the copy of [regs] back into [state] writes each slot onto itself *)
      Ok (stopFlag, None, with_state m st)
  end.

Definition stepExec (addressMax : Z) (m : Machine) : Go (bool * option Termination * Machine) :=
  '(inst, opr, _) ← parse (memory m) (state m);
  pc ← index (state m) PC;
  fr ← index (state m) FR;
  sp ← index (state m) SP;
  _ ← (if Z.of_nat (length (state m)) <? GR7 + 1 then Panic "slice bounds out of range" else Ok tt);
  let instVal := memGet (memory m) pc in
  let gr := Z.land (Z.shiftr instVal 4) 0xf in
  let xr := Z.land instVal 0xf in
  let adr := memGet (memory m) (add64 pc 1) in
  eadr ← effectiveAddress m xr adr;
  let regreg := grIsGr_MatchString opr in
  flow ← execute addressMax inst regreg m gr xr eadr pc fr sp;
  commit flow.

(** The state every front end starts from ([main], [handleLaunch]). *)
Definition initialState (startAddress : Z) : list Z :=
  [startAddress; FR_PLUS; 0; 0; 0; 0; 0; 0; 0; 0; STACK_TOP].

(** [make([]uint16, 0x10000)] followed by [copy]. *)
Definition freshMemory (comet2bin : list Z) : list Z :=
  take (Z.to_nat 0x10000) (comet2bin ++ replicate (Z.to_nat 0x10000) 0).

(** ** lexer.go: tokens and the scanner

    The lexer only moves forward, so its state is the text still to be read;
    a token's [Value] is the text consumed for it.  The line and column
    fields of a token are never read by [ParseLine] and are left out. *)

Inductive TokenType : Type :=
| TOKEN_EOF | TOKEN_NEWLINE | TOKEN_LABEL | TOKEN_INSTRUCTION | TOKEN_REGISTER
| TOKEN_NUMBER | TOKEN_HEXNUM | TOKEN_STRING | TOKEN_COMMA | TOKEN_EQUALS
| TOKEN_WHITESPACE | TOKEN_COMMENT.

Record Token : Type := mkToken { Type_ : TokenType; Value : string }.

Definition byte (c : ascii) : N := N_of_ascii c.
Definition between (lo hi c : ascii) : bool :=
  (byte lo <=? byte c)%N && (byte c <=? byte hi)%N.

(** [peek] and [peekN] give the byte 0 at the end of the input. *)
Definition peekN (input : string) (n : nat) : ascii :=
  match String.get n input with
  | Some c => c
  | None => zero
  end.
Definition peek (input : string) : ascii := peekN input 0.

(** [advance]: one byte further, unless at the end. *)
Definition advance (input : string) : string :=
  match input with
  | String _ rest => rest
  | EmptyString => EmptyString
  end.

Definition isLetter (ch : ascii) : bool :=
  between "a" "z" ch || between "A" "Z" ch ||
  Ascii.eqb ch "$" || Ascii.eqb ch "%" || Ascii.eqb ch "_" || Ascii.eqb ch ".".
Definition isDigit (ch : ascii) : bool := between "0" "9" ch.
Definition isHexDigit (ch : ascii) : bool :=
  between "0" "9" ch || between "a" "f" ch || between "A" "F" ch.
Definition isLabelChar (ch : ascii) : bool := isLetter ch || isDigit ch.
Definition isWhitespace (ch : ascii) : bool :=
  Ascii.eqb ch " " || Ascii.eqb ch "009".
Definition isLF (ch : ascii) : bool := Ascii.eqb ch "010".
Definition isCR (ch : ascii) : bool := Ascii.eqb ch "013".
Definition isNUL (ch : ascii) : bool := Ascii.eqb ch zero.

(** [for p(l.peek()) { l.advance() }]: the longest prefix whose bytes
    satisfy [p], and what follows it.  No [p] used holds of the byte 0. *)
Fixpoint scanWhile (p : ascii -> bool) (input : string) : string * string :=
  match input with
  | EmptyString => (EmptyString, EmptyString)
  | String c rest =>
      if p c then let '(tok, rest') := scanWhile p rest in (String c tok, rest')
      else (EmptyString, input)
  end.

Definition scanWhitespace (input : string) : Token * string :=
  let '(v, rest) := scanWhile isWhitespace input in (mkToken TOKEN_WHITESPACE v, rest).

Definition scanNewline (input : string) : Token * string :=
  let tok := mkToken TOKEN_NEWLINE (String "010" EmptyString) in
  match input with
  | String c (String c' rest') => if isCR c && isLF c' then (tok, rest') else (tok, String c' rest')
  | String c EmptyString => (tok, EmptyString)
  | EmptyString => (tok, EmptyString)
  end.

Definition scanComment (input : string) : Token * string :=
  match input with
  | String c rest =>
      let '(v, rest') := scanWhile (fun ch => negb (isLF ch) && negb (isCR ch) && negb (isNUL ch)) rest in
      (mkToken TOKEN_COMMENT (String c v), rest')
  | EmptyString => (mkToken TOKEN_COMMENT EmptyString, EmptyString)
  end.

(** The body of a string after its opening quote: up to and including the
    closing quote, a doubled quote being part of the string; the scan also
    stops, unterminated, at the end of the input or at a byte 0. *)
Fixpoint scanStringBody (input : string) : string * string :=
  match input with
  | EmptyString => (EmptyString, EmptyString)
  | String c rest =>
      if isNUL c then (EmptyString, input)
      else if Ascii.eqb c "'" then
        match rest with
        | String c' rest' =>
            if Ascii.eqb c' "'" then
              let '(v, r) := scanStringBody rest' in (String c (String c' v), r)
            else (String c EmptyString, rest)
        | EmptyString => (String c EmptyString, rest)
        end
      else let '(v, r) := scanStringBody rest in (String c v, r)
  end.

Definition scanString (input : string) : Token * string :=
  match input with
  | String c rest =>
      let '(v, rest') := scanStringBody rest in (mkToken TOKEN_STRING (String c v), rest')
  | EmptyString => (mkToken TOKEN_STRING EmptyString, EmptyString)
  end.

Definition scanHexNumber (input : string) : Token * string :=
  match input with
  | String c rest =>
      let '(v, rest') := scanWhile isHexDigit rest in (mkToken TOKEN_HEXNUM (String c v), rest')
  | EmptyString => (mkToken TOKEN_HEXNUM EmptyString, EmptyString)
  end.

Definition scanNumber (input : string) : Token * string :=
  match input with
  | String c rest =>
      if Ascii.eqb c "+" || Ascii.eqb c "-" then
        let '(v, rest') := scanWhile isDigit rest in (mkToken TOKEN_NUMBER (String c v), rest')
      else
        let '(v, rest') := scanWhile isDigit input in (mkToken TOKEN_NUMBER v, rest')
  | EmptyString => (mkToken TOKEN_NUMBER EmptyString, EmptyString)
  end.

Definition scanIdentifier (input : string) : Token * string :=
  let asLabel :=
    let '(v, rest) := scanWhile isLabelChar input in (mkToken TOKEN_LABEL v, rest) in
  if Ascii.eqb (peek input) "G" && Ascii.eqb (peekN input 1) "R" then
    let next := peekN input 2 in
    if between "0" "7" next then
      let c3 := peekN input 3 in
      if negb (isLabelChar c3) && negb (isNUL c3) && negb (isWhitespace c3)
         && negb (Ascii.eqb c3 ",") && negb (isLF c3) && negb (isCR c3)
         && negb (Ascii.eqb c3 ";")
      then asLabel
      else (mkToken TOKEN_REGISTER (String.substring 0 3 input),
            advance (advance (advance input)))
    else asLabel
  else asLabel.

Definition NextToken (input : string) : Token * string :=
  let ch := peek input in
  if isWhitespace ch then scanWhitespace input
  else if isLF ch || isCR ch then scanNewline input
  else if isNUL ch then (mkToken TOKEN_EOF EmptyString, input)
  else if Ascii.eqb ch ";" then scanComment input
  else if Ascii.eqb ch "," then
    (mkToken TOKEN_COMMA ",", advance input)
  else if Ascii.eqb ch "=" then
    (mkToken TOKEN_EQUALS "=", advance input)
  else if Ascii.eqb ch "'" then scanString input
  else if Ascii.eqb ch "#" then scanHexNumber input
  else if isDigit ch || ((Ascii.eqb ch "+" || Ascii.eqb ch "-") && isDigit (peekN input 1))
  then scanNumber input
  else if isLetter ch then scanIdentifier input
  else (mkToken TOKEN_EOF ("unexpected character: " +:+ String ch EmptyString),
        advance input).

(** ** lexer.go: the line parser *)

Record ParsedLine : Type := mkParsedLine {
  Label : string;
  Instruction : string;
  Operands : list string;
  Line : Z
}.

(** The token loop of [ParseLine].  Every token but end-of-input consumes
    at least one byte, so [fuel] above the length of the line is never used
    up ([tokenize_fuel] below). *)
Fixpoint tokenize (fuel : nat) (input : string) (firstToken hasLeadingWhitespace : bool)
    (tokens : list Token) : list Token * bool :=
  match fuel with
  | O => (tokens, hasLeadingWhitespace)
  | S fuel' =>
      let '(tok, rest) := NextToken input in
      match Type_ tok with
      | TOKEN_EOF | TOKEN_COMMENT | TOKEN_NEWLINE => (tokens, hasLeadingWhitespace)
      | TOKEN_WHITESPACE =>
          tokenize fuel' rest firstToken (if firstToken then true else hasLeadingWhitespace) tokens
      | _ => tokenize fuel' rest false hasLeadingWhitespace (tokens ++ [tok])
      end
  end.

(** main.go: the CASL II instruction table. *)
Definition CASL2TBL_entries : list (string * (Z * InstructionType)) :=
  [ ("NOP", (0x00, OP4)); ("LD", (0x10, OP5)); ("ST", (0x11, OP1)); ("LAD", (0x12, OP1));
    ("ADDA", (0x20, OP5)); ("SUBA", (0x21, OP5)); ("ADDL", (0x22, OP5)); ("SUBL", (0x23, OP5));
    ("MULA", (0x28, OP5)); ("DIVA", (0x29, OP5)); ("MULL", (0x2A, OP5)); ("DIVL", (0x2B, OP5));
    ("AND", (0x30, OP5)); ("OR", (0x31, OP5)); ("XOR", (0x32, OP5));
    ("CPA", (0x40, OP5)); ("CPL", (0x41, OP5));
    ("SLA", (0x50, OP1)); ("SRA", (0x51, OP1)); ("SLL", (0x52, OP1)); ("SRL", (0x53, OP1));
    ("JMI", (0x61, OP2)); ("JNZ", (0x62, OP2)); ("JZE", (0x63, OP2)); ("JUMP", (0x64, OP2));
    ("JPL", (0x65, OP2)); ("JOV", (0x66, OP2));
    ("PUSH", (0x70, OP2)); ("POP", (0x71, OP3)); ("CALL", (0x80, OP2)); ("RET", (0x81, OP4));
    ("SVC", (0xf0, OP2));
    ("START", (0x00, START)); ("END", (0x00, END)); ("DS", (0x00, DS)); ("DC", (0x00, DC));
    ("IN", (0x00, IN)); ("OUT", (0x00, OUT)); ("RPUSH", (0x00, RPUSH)); ("RPOP", (0x00, RPOP)) ].

Fixpoint assoc {A : Type} (k : string) (l : list (string * A)) : option A :=
  match l with
  | [] => None
  | (k', v) :: l' => if String.eqb k k' then Some v else assoc k l'
  end.

Definition CASL2TBL (inst : string) : option (Z * InstructionType) :=
  assoc inst CASL2TBL_entries.

Definition isInstruction (s : string) : bool :=
  match CASL2TBL s with Some _ => true | None => false end.

Definition isTokenType (a b : TokenType) : bool :=
  match a, b with
  | TOKEN_EOF, TOKEN_EOF | TOKEN_NEWLINE, TOKEN_NEWLINE | TOKEN_LABEL, TOKEN_LABEL
  | TOKEN_INSTRUCTION, TOKEN_INSTRUCTION | TOKEN_REGISTER, TOKEN_REGISTER
  | TOKEN_NUMBER, TOKEN_NUMBER | TOKEN_HEXNUM, TOKEN_HEXNUM | TOKEN_STRING, TOKEN_STRING
  | TOKEN_COMMA, TOKEN_COMMA | TOKEN_EQUALS, TOKEN_EQUALS
  | TOKEN_WHITESPACE, TOKEN_WHITESPACE | TOKEN_COMMENT, TOKEN_COMMENT => true
  | _, _ => false
  end.

(** The operand loop of [ParseLine]. *)
Fixpoint parseOperandTokens (tokens : list Token) : string + list string :=
  match tokens with
  | [] => inr []
  | tok :: rest =>
      match Type_ tok with
      | TOKEN_EQUALS =>
          match rest with
          | [] => inl "expected value after ="
          | nextTok :: rest' =>
              match Type_ nextTok with
              | TOKEN_NUMBER | TOKEN_HEXNUM | TOKEN_STRING | TOKEN_LABEL =>
                  match parseOperandTokens rest' with
                  | inr ops => inr (("=" +:+ Value nextTok) :: ops)
                  | inl e => inl e
                  end
              | _ => inl "invalid literal value"
              end
          end
      | TOKEN_COMMA => parseOperandTokens rest
      | TOKEN_REGISTER | TOKEN_LABEL | TOKEN_NUMBER | TOKEN_HEXNUM | TOKEN_STRING =>
          match parseOperandTokens rest with
          | inr ops => inr (Value tok :: ops)
          | inl e => inl e
          end
      | _ => inl ("unexpected token: " +:+ Value tok)
      end
  end.

Definition ParseLine (line : string) (lineNum : Z) : string + ParsedLine :=
  let '(tokens, hasLeadingWhitespace) :=
    tokenize (S (String.length line)) line true false [] in
  match tokens with
  | [] => inr (mkParsedLine "" "" [] lineNum)
  | tok0 :: rest0 =>
      let head : string + (string * string * list Token) :=
        if negb hasLeadingWhitespace && isTokenType (Type_ tok0) TOKEN_LABEL then
          if isInstruction (Value tok0) then inr ("", Value tok0, rest0)
          else
            match rest0 with
            | tok1 :: rest1 =>
                if isTokenType (Type_ tok1) TOKEN_LABEL && isInstruction (Value tok1)
                then inr (Value tok0, Value tok1, rest1)
                else inr (Value tok0, "", rest0)
            | [] => inr (Value tok0, "", rest0)
            end
        else if hasLeadingWhitespace && isTokenType (Type_ tok0) TOKEN_LABEL then
          if isInstruction (Value tok0) then inr ("", Value tok0, rest0)
          else inl ("expected instruction after leading whitespace, got " +:+ Value tok0)
        else inr ("", "", tokens) in
      match head with
      | inl e => inl e
      | inr (label, inst, rest) =>
          match parseOperandTokens rest with
          | inl e => inl e
          | inr ops => inr (mkParsedLine label inst ops lineNum)
          end
      end
  end.

(** ** Go library functions used by the assembler *)

Definition HasPrefix (s pre : string) : bool := String.prefix pre s.

Definition HasSuffix (s suf : string) : bool :=
  (String.length suf <=? String.length s)%nat &&
  String.eqb (String.substring (String.length s - String.length suf) (String.length suf) s) suf.

Definition TrimPrefix (s pre : string) : string :=
  if HasPrefix s pre then String.substring (String.length pre) (String.length s - String.length pre) s
  else s.

(** [strings.ReplaceAll(s, "''", "'")]. *)
Fixpoint unescapeQuotes (s : string) : string :=
  match s with
  | String c (String c' rest as tail) =>
      if Ascii.eqb c "'" && Ascii.eqb c' "'" then String "'" (unescapeQuotes rest)
      else String c (unescapeQuotes tail)
  | _ => s
  end.

(** [strings.Split(strings.ReplaceAll(source, "\r\n", "\n"), "\n")]. *)
Fixpoint replaceCRLF (s : string) : string :=
  match s with
  | String c (String c' rest as tail) =>
      if isCR c && isLF c' then String c' (replaceCRLF rest)
      else String c (replaceCRLF tail)
  | _ => s
  end.

Fixpoint splitLF (s : string) (cur : string) : list string :=
  match s with
  | EmptyString => [cur]
  | String c rest =>
      if isLF c then cur :: splitLF rest EmptyString
      else splitLF rest (cur +:+ String c EmptyString)
  end.

Definition sourceLines (source : string) : list string :=
  splitLF (replaceCRLF source) EmptyString.

(** [for _, ch := range str]: the code points of a string, a byte that
    does not start a well-formed UTF-8 sequence giving U+FFFD. *)
Definition zbyte (c : ascii) : Z := Z.of_N (byte c).
Definition inRange (lo hi v : Z) : bool := (lo <=? v) && (v <=? hi).
Definition isCont (c : ascii) : bool := inRange 0x80 0xBF (zbyte c).

Fixpoint runes (s : string) : list Z :=
  match s with
  | EmptyString => []
  | String b0 r0 =>
      let n0 := zbyte b0 in
      if n0 <? 0x80 then n0 :: runes r0
      else
        match r0 with
        | String b1 r1 =>
            let n1 := zbyte b1 in
            if inRange 0xC2 0xDF n0 && isCont b1 then
              Z.lor (Z.shiftl (Z.land n0 0x1F) 6) (Z.land n1 0x3F) :: runes r1
            else
              match r1 with
              | String b2 r2 =>
                  let n2 := zbyte b2 in
                  if (((n0 =? 0xE0) && inRange 0xA0 0xBF n1)
                      || (inRange 0xE1 0xEC n0 && isCont b1)
                      || ((n0 =? 0xED) && inRange 0x80 0x9F n1)
                      || (inRange 0xEE 0xEF n0 && isCont b1)) && isCont b2 then
                    Z.lor (Z.lor (Z.shiftl (Z.land n0 0x0F) 12) (Z.shiftl (Z.land n1 0x3F) 6))
                          (Z.land n2 0x3F) :: runes r2
                  else
                    match r2 with
                    | String b3 r3 =>
                        if (((n0 =? 0xF0) && inRange 0x90 0xBF n1)
                            || (inRange 0xF1 0xF3 n0 && isCont b1)
                            || ((n0 =? 0xF4) && inRange 0x80 0x8F n1))
                           && isCont b2 && isCont b3 then
                          Z.lor (Z.lor (Z.lor (Z.shiftl (Z.land n0 0x07) 18)
                                              (Z.shiftl (Z.land n1 0x3F) 12))
                                       (Z.shiftl (Z.land n2 0x3F) 6))
                                (Z.land (zbyte b3) 0x3F) :: runes r3
                        else 0xFFFD :: runes r0
                    | EmptyString => 0xFFFD :: runes r0
                    end
              | EmptyString => 0xFFFD :: runes r0
              end
        | EmptyString => 0xFFFD :: runes r0
        end
  end.

(** [strings.TrimSpace(line) == ""]: the line is made of Unicode white
    space only. *)
Fixpoint isBlank (s : string) : bool :=
  match s with
  | EmptyString => true
  | String b0 r0 =>
      let n0 := zbyte b0 in
      if inRange 0x09 0x0D n0 || (n0 =? 0x20) then isBlank r0
      else
        match r0 with
        | String b1 r1 =>
            let n1 := zbyte b1 in
            if (n0 =? 0xC2) && ((n1 =? 0x85) || (n1 =? 0xA0)) then isBlank r1
            else
              match r1 with
              | String b2 r2 =>
                  let n2 := zbyte b2 in
                  if ((n0 =? 0xE1) && (n1 =? 0x9A) && (n2 =? 0x80))
                     || ((n0 =? 0xE2) && (n1 =? 0x80)
                         && (inRange 0x80 0x8A n2 || (n2 =? 0xA8) || (n2 =? 0xA9) || (n2 =? 0xAF)))
                     || ((n0 =? 0xE2) && (n1 =? 0x81) && (n2 =? 0x9F))
                     || ((n0 =? 0xE3) && (n1 =? 0x80) && (n2 =? 0x80))
                  then isBlank r2
                  else false
              | EmptyString => false
              end
        | EmptyString => false
        end
  end.

(** [strconv.ParseInt(s, base, 64)] for base 10 and 16: an optional sign,
    then at least one digit, the value within 64 bits; [None] is an error. *)
Definition digitValue (c : ascii) : option Z :=
  if between "0" "9" c then Some (zbyte c - 48)
  else if between "a" "f" c then Some (zbyte c - 87)
  else if between "A" "F" c then Some (zbyte c - 55)
  else None.

Fixpoint parseDigits (base : Z) (s : string) (acc : Z) : option Z :=
  match s with
  | EmptyString => Some acc
  | String c rest =>
      match digitValue c with
      | Some d => if d <? base then parseDigits base rest (acc * base + d) else None
      | None => None
      end
  end.

Definition parseUnsigned (base : Z) (s : string) : option Z :=
  match s with
  | EmptyString => None
  | _ => parseDigits base s 0
  end.

Definition ParseInt (s : string) (base : Z) : option Z :=
  let r :=
    match s with
    | EmptyString => None
    | String c rest =>
        if Ascii.eqb c "+" then parseUnsigned base rest
        else if Ascii.eqb c "-" then Z.opp <$> parseUnsigned base rest
        else parseUnsigned base s
    end in
  match r with
  | Some v => if (- 2 ^ 63 <=? v) && (v <? 2 ^ 63) then Some v else None
  | None => None
  end.

Definition Atoi (s : string) : option Z := ParseInt s 10.

(** [strings.ToUpper], as far as its callers can tell: they compare the
    result with texts made of G, R and digits, and no character other than
    the ASCII letters g and r is mapped to G or R. *)
Definition upperByte (c : ascii) : ascii :=
  if between "a" "z" c then ascii_of_N (byte c - 32) else c.
Fixpoint ToUpper (s : string) : string :=
  match s with
  | EmptyString => EmptyString
  | String c rest => String (upperByte c) (ToUpper rest)
  end.

(** ** lexer.go: label and register predicates *)

Fixpoint allChars (p : ascii -> bool) (s : string) : bool :=
  match s with
  | EmptyString => true
  | String c rest => p c && allChars p rest
  end.

Definition IsValidLabel (s : string) : bool :=
  match s with
  | EmptyString => false
  | String c rest => isLetter c && allChars isLabelChar rest
  end.

Definition IsRegister (s : string) : bool :=
  match ToUpper s with
  | String c0 (String c1 (String c2 EmptyString)) =>
      Ascii.eqb c0 "G" && Ascii.eqb c1 "R" && between "0" "7" c2
  | _ => false
  end.

(** [CheckRegister]: the register number, [None] for the error. *)
Definition CheckRegister (register : string) : option Z :=
  let s := ToUpper register in
  if IsRegister s then Some (zbyte (peekN s 2) - 48) else None.
Definition checkRegister (register : string) : option Z := CheckRegister register.

(** ** assembler.go: data *)

(** An [interface{}] that holds an [int] or a [string]. *)
Inductive Val : Type :=
| VInt (v : Z)
| VStr (s : string).

Record SymbolEntry : Type := mkSymbolEntry { symVal : Val; symFile : string; symLine : Z }.
Record MemoryEntry : Type := mkMemoryEntry { memVal : Val; memFile : string; memLine : Z }.

(** [AssemblerState]; the listing buffers [buf] and [outdump], which only
    the [-a] listing reads, are left out.  [emitted] is not a field of the Go
    struct: it is the history of the stores into [memory], the address of
    each store in the order they happen, kept to state how pass 1 fills the
    map. *)
Record AssemblerState : Type := mkAssemblerState {
  symtbl : gmap string SymbolEntry;
  asmMemory : gmap Z MemoryEntry;
  actualLabel : string;
  virtualLabel : string;
  firstStart : bool;
  varScope : string;
  literalCounter : Z;
  file : string;
  line : Z;
  emitted : list Z
}.

Definition newAssemblerState : AssemblerState :=
  mkAssemblerState ∅ ∅ "" "" true "" 0 "" 0 [].

Definition set_symtbl (a : AssemblerState) (t : gmap string SymbolEntry) : AssemblerState :=
  mkAssemblerState t (asmMemory a) (actualLabel a) (virtualLabel a) (firstStart a)
    (varScope a) (literalCounter a) (file a) (line a) (emitted a).
Definition set_actualLabel (a : AssemblerState) (l : string) : AssemblerState :=
  mkAssemblerState (symtbl a) (asmMemory a) l (virtualLabel a) (firstStart a)
    (varScope a) (literalCounter a) (file a) (line a) (emitted a).
Definition set_virtualLabel (a : AssemblerState) (l : string) : AssemblerState :=
  mkAssemblerState (symtbl a) (asmMemory a) (actualLabel a) l (firstStart a)
    (varScope a) (literalCounter a) (file a) (line a) (emitted a).
Definition set_firstStart (a : AssemblerState) (b : bool) : AssemblerState :=
  mkAssemblerState (symtbl a) (asmMemory a) (actualLabel a) (virtualLabel a) b
    (varScope a) (literalCounter a) (file a) (line a) (emitted a).
Definition set_varScope (a : AssemblerState) (s : string) : AssemblerState :=
  mkAssemblerState (symtbl a) (asmMemory a) (actualLabel a) (virtualLabel a) (firstStart a)
    s (literalCounter a) (file a) (line a) (emitted a).
Definition set_literalCounter (a : AssemblerState) (n : Z) : AssemblerState :=
  mkAssemblerState (symtbl a) (asmMemory a) (actualLabel a) (virtualLabel a) (firstStart a)
    (varScope a) n (file a) (line a) (emitted a).
Definition set_file (a : AssemblerState) (f : string) : AssemblerState :=
  mkAssemblerState (symtbl a) (asmMemory a) (actualLabel a) (virtualLabel a) (firstStart a)
    (varScope a) (literalCounter a) f (line a) (emitted a).
Definition set_line (a : AssemblerState) (n : Z) : AssemblerState :=
  mkAssemblerState (symtbl a) (asmMemory a) (actualLabel a) (virtualLabel a) (firstStart a)
    (varScope a) (literalCounter a) (file a) n (emitted a).

(** What the assembler makes of a source: a value, an error ([fmt.Errorf])
    or a run-time panic. *)
Inductive Result (A : Type) : Type :=
| Done (a : A)
| Failed (err : string)
| Aborted (reason : string).
Arguments Done {A} a.
Arguments Failed {A} err.
Arguments Aborted {A} reason.

#[export] Instance Result_ret : MRet Result := fun A a => Done a.
#[export] Instance Result_bind : MBind Result := fun A B f c =>
  match c with
  | Done a => f a
  | Failed e => Failed e
  | Aborted r => Aborted r
  end.

(** [errorCasl2], without the colour escapes around the text. *)
Definition errorCasl2 (asmState : AssemblerState) (msg : string) : string :=
  "Line " +:+ itoa (line asmState) +:+ ": " +:+ msg.

(** The text [s] between double quotes (the character 34). *)
Definition quoted (s : string) : string := String "034" (s +:+ String "034" EmptyString).

(** ** assembler.go: helper functions

    Addresses and the literal counter are far from the 64-bit limits (each
    unit of the address is an entry of the memory map), so they are plain
    integers here. *)

Definition handleLiteral (lit : string) (stack : list string) (counter : Z)
    : string * list string * Z :=
  let newLit := lit +:+ "_" +:+ itoa counter in
  (newLit, stack ++ [newLit], counter + 1).

Definition checkLabel (asmState : AssemblerState) (label : string) : option string :=
  if negb (IsValidLabel label) then
    Some (errorCasl2 asmState ("Invalid label " +:+ quoted label))
  else None.

Definition addLabel (asmState : AssemblerState) (label : string) (val : Z)
    : Result AssemblerState :=
  match checkLabel asmState label with
  | Some err => Failed err
  | None =>
      let uniqLabel := varScope asmState +:+ ":" +:+ label in
      match symtbl asmState !! uniqLabel with
      | Some _ => Failed (errorCasl2 asmState ("Label " +:+ quoted label +:+ " has already defined"))
      | None =>
          Done (set_symtbl asmState
                  (<[uniqLabel := mkSymbolEntry (VInt val) (file asmState) (line asmState)]>
                     (symtbl asmState)))
      end
  end.

Definition updateLabel (asmState : AssemblerState) (label : string) (val : Z)
    : Result AssemblerState :=
  match checkLabel asmState label with
  | Some err => Failed err
  | None =>
      let uniqLabel := varScope asmState +:+ ":" +:+ label in
      match symtbl asmState !! uniqLabel with
      | None => Failed (errorCasl2 asmState ("Label " +:+ quoted label +:+ " is not defined"))
      | Some _ =>
          Done (set_symtbl asmState
                  (<[uniqLabel := mkSymbolEntry (VInt val) (file asmState) (line asmState)]>
                     (symtbl asmState)))
      end
  end.

Definition addLiteral (asmState : AssemblerState) (literal : string) (val : Z)
    : AssemblerState :=
  set_symtbl asmState
    (<[literal := mkSymbolEntry (VInt val) (file asmState) (line asmState)]> (symtbl asmState)).

(** [expandLabel] calls itself on the value of a symbol; [fuel] bounds the
    depth of these calls ([None]: not enough fuel). *)
Definition lastIndexColon (s : string) : option nat :=
  let fix go (s : string) (i : nat) (found : option nat) : option nat :=
    match s with
    | EmptyString => found
    | String c rest => go rest (S i) (if Ascii.eqb c ":" then Some i else found)
    end in
  go s 0%nat None.

Definition dropBytes (n : nat) (s : string) : string :=
  String.substring n (String.length s - n) s.

Fixpoint expandLabel (fuel : nat) (symtbl : gmap string SymbolEntry) (val : Val) : option Z :=
  match val with
  | VInt v => Some (Z.land v 0xffff)
  | VStr v =>
      let hexnum := if HasPrefix v "#" then ParseInt (dropBytes 1 v) 16 else None in
      match hexnum with
      | Some num => Some (Z.land num 0xffff)
      | None =>
          let recurse (entry : SymbolEntry) : option Z :=
            match fuel with
            | O => None
            | S fuel' => expandLabel fuel' symtbl (symVal entry)
            end in
          let tail : option Z :=
            match ParseInt v 10 with
            | Some num => Some (Z.land num 0xffff)
            | None => Some 0
            end in
          match symtbl !! v with
          | Some entry => recurse entry
          | None =>
              if HasPrefix v "CALL_" then
                let lbl := dropBytes 5 v in
                match symtbl !! lbl with
                | Some entry => recurse entry
                | None =>
                    match lastIndexColon v with
                    | Some idx =>
                        let labelPart := dropBytes (S idx) v in
                        let k := labelPart +:+ ":" +:+ labelPart in
                        match symtbl !! k with
                        | Some entry => recurse entry
                        | None => tail
                        end
                    | None => tail
                    end
                end
              else tail
          end
      end
  end.

Definition isNumberOrHex (s : string) : bool :=
  match s with
  | EmptyString => false
  | String c rest =>
      if Ascii.eqb c "#" then
        match rest with
        | EmptyString => false
        | _ => allChars isHexDigit rest
        end
      else
        let digits := if Ascii.eqb c "+" || Ascii.eqb c "-" then rest else s in
        match digits with
        | EmptyString => false
        | _ => allChars (fun ch => between "0" "9" ch) digits
        end
  end.

Definition isGR0 (s : string) : bool :=
  let s := ToUpper s in String.eqb s "GR0" || String.eqb s "0".

(** [memory[address] = &MemoryEntry{Val: val, File: ..., Line: ...}]. *)
Definition store (asmState : AssemblerState) (address : Z) (val : Val) : AssemblerState :=
  mkAssemblerState (symtbl asmState)
    (<[address := mkMemoryEntry val (file asmState) (line asmState)]> (asmMemory asmState))
    (actualLabel asmState) (virtualLabel asmState) (firstStart asmState)
    (varScope asmState) (literalCounter asmState) (file asmState) (line asmState)
    (emitted asmState ++ [address]).

Definition genCode1 (asmState : AssemblerState) (address : Z) (val : Val) : AssemblerState :=
  match val with
  | VInt v => store asmState address (VInt v)
  | VStr v =>
      let hexnum := if HasPrefix v "#" then ParseInt (dropBytes 1 v) 16 else None in
      match hexnum with
      | Some num => store asmState address (VInt (Z.land num 0xffff))
      | None =>
          match ParseInt v 10 with
          | Some num => store asmState address (VInt (Z.land num 0xffff))
          | None => store asmState address (VStr v)
          end
      end
  end.

Definition registerNumber (r : string) : Z := default 0 (checkRegister r).

Definition genCode2 (asmState : AssemblerState) (address code : Z) (gr adr xr : string)
    : AssemblerState :=
  let ngr := registerNumber gr in
  let nxr := registerNumber xr in
  let val := Z.shiftl code 8 + Z.shiftl ngr 4 + nxr in
  let asmState := store asmState address (VInt val) in
  let hexnum := if HasPrefix adr "#" then ParseInt (dropBytes 1 adr) 16 else None in
  match hexnum with
  | Some num => store asmState (address + 1) (VInt (Z.land num 0xffff))
  | None => store asmState (address + 1) (VStr adr)
  end.

Definition genCode3 (asmState : AssemblerState) (address code : Z) (gr1 gr2 : string)
    : AssemblerState :=
  let ngr1 := registerNumber gr1 in
  let ngr2 := registerNumber gr2 in
  let val := Z.shiftl code 8 + Z.shiftl ngr1 4 + ngr2 in
  store asmState address (VInt val).

(** ** assembler.go: pass 1 *)

(** The local variables of [pass1] next to the assembler state. *)
Record Pass1State : Type := mkPass1State {
  asm : AssemblerState;
  inBlock : bool;
  address : Z;
  literalStack : list string;
  comet2startLabel : string
}.

Definition Contains (s sub : string) : bool :=
  match String.index 0 sub s with Some _ => true | None => false end.

Fixpoint Join (l : list string) (sep : string) : string :=
  match l with
  | [] => ""
  | [x] => x
  | x :: rest => x +:+ sep +:+ Join rest sep
  end.

Definition invalidOperand (asmState : AssemblerState) (opr : string) : string :=
  errorCasl2 asmState ("Invalid operand " +:+ quoted opr).

(** The words of a string constant: its characters, then a zero word.
    [text] is the operand with its quotes; slicing the quotes off a text of
    one byte panics. *)
Definition stringWords (text : string) : Result (list Z) :=
  if (String.length text <? 2)%nat then Aborted "slice bounds out of range"
  else
    let str := String.substring 1 (String.length text - 2) text in
    Done (runes (unescapeQuotes str) ++ [0]).

Fixpoint emitWords (asmState : AssemblerState) (address : Z) (words : list Z)
    : AssemblerState * Z :=
  match words with
  | [] => (asmState, address)
  | w :: rest => emitWords (genCode1 asmState address (VInt w)) (address + 1) rest
  end.

(** The address operand of an OP1 or OP5 instruction: a literal is queued,
    a label gets its scope. *)
Definition addressOperand (asmState : AssemblerState) (literalStack : list string)
    (o1 : string) : string * AssemblerState * list string :=
  if HasPrefix o1 "=" then
    let '(newLit, stack, counter) := handleLiteral o1 literalStack (literalCounter asmState) in
    (newLit, set_literalCounter asmState counter, stack)
  else if IsValidLabel o1 && negb (IsRegister o1) then
    (varScope asmState +:+ ":" +:+ o1, asmState, literalStack)
  else (o1, asmState, literalStack).

Definition pass1_OP1 (p : Pass1State) (asmState : AssemblerState) (code : Z)
    (opr : string) (oprArray : list string) : Result Pass1State :=
  match oprArray with
  | [o0; o1] | [o0; o1; _] =>
      let o2 := match oprArray with [_; _; o2] => o2 | _ => "0" end in
      let '(o1, asmState, stack) := addressOperand asmState (literalStack p) o1 in
      let asmState := genCode2 asmState (address p) code o0 o1 o2 in
      Done (mkPass1State asmState (inBlock p) (address p + 2) stack (comet2startLabel p))
  | _ => Failed (invalidOperand asmState opr)
  end.

Definition pass1_OP2 (p : Pass1State) (asmState : AssemblerState) (code : Z)
    (inst opr : string) (oprArray : list string) : Result Pass1State :=
  match oprArray with
  | [o0] | [o0; _] =>
      let o1 := match oprArray with [_; o1] => o1 | _ => "0" end in
      let o0 :=
        if negb (IsRegister o0) && IsValidLabel o0 then
          if Contains inst "CALL" then "CALL_" +:+ varScope asmState +:+ ":" +:+ o0
          else varScope asmState +:+ ":" +:+ o0
        else o0 in
      let asmState := genCode2 asmState (address p) code "0" o0 o1 in
      Done (mkPass1State asmState (inBlock p) (address p + 2) (literalStack p) (comet2startLabel p))
  | _ => Failed (invalidOperand asmState opr)
  end.

Definition pass1_OP3 (p : Pass1State) (asmState : AssemblerState) (code : Z)
    (opr : string) (oprArray : list string) : Result Pass1State :=
  match oprArray with
  | [o0] =>
      let asmState := genCode3 asmState (address p) code o0 "0" in
      Done (mkPass1State asmState (inBlock p) (address p + 1) (literalStack p) (comet2startLabel p))
  | _ => Failed (invalidOperand asmState opr)
  end.

Definition pass1_OP4 (p : Pass1State) (asmState : AssemblerState) (code : Z)
    (opr : string) (oprArray : list string) : Result Pass1State :=
  match oprArray with
  | [] =>
      let asmState := genCode1 asmState (address p) (VInt (Z.shiftl code 8)) in
      Done (mkPass1State asmState (inBlock p) (address p + 1) (literalStack p) (comet2startLabel p))
  | _ => Failed (invalidOperand asmState opr)
  end.

Definition pass1_OP5 (p : Pass1State) (asmState : AssemblerState) (code : Z)
    (opr : string) (oprArray : list string) : Result Pass1State :=
  match oprArray with
  | [o0; o1] | [o0; o1; _] =>
      let o2 := match oprArray with [_; _; o2] => o2 | _ => "0" end in
      let '(o1, asmState, stack) := addressOperand asmState (literalStack p) o1 in
      if IsRegister o1 then
        let asmState := genCode3 asmState (address p) (code + 4) o0 o1 in
        Done (mkPass1State asmState (inBlock p) (address p + 1) stack (comet2startLabel p))
      else
        let asmState := genCode2 asmState (address p) code o0 o1 o2 in
        Done (mkPass1State asmState (inBlock p) (address p + 2) stack (comet2startLabel p))
  | _ => Failed (invalidOperand asmState opr)
  end.

Definition pass1_START (p : Pass1State) (asmState : AssemblerState)
    (label : string) (oprArray : list string) : Result Pass1State :=
  if String.eqb label "" then Failed (errorCasl2 asmState "No label found at START")
  else
    let '(asmState, startLabel) :=
      if firstStart asmState then
        (set_firstStart asmState false,
         match oprArray with
         | o0 :: _ => label +:+ ":" +:+ o0
         | [] => label +:+ ":" +:+ label
         end)
      else
        (set_virtualLabel
           (set_actualLabel asmState (match oprArray with o0 :: _ => o0 | [] => "" end))
           label,
         comet2startLabel p) in
    let asmState := set_varScope asmState label in
    asmState ← addLabel asmState label (address p);
    Done (mkPass1State asmState true (address p) (literalStack p) startLabel).

(** The literal loop of END; the queue itself is left as it is. *)
Fixpoint expandLiterals (asmState : AssemblerState) (address : Z) (lits : list string)
    : Result (AssemblerState * Z) :=
  match lits with
  | [] => Done (asmState, address)
  | lit :: rest =>
      let asmState := addLiteral asmState lit address in
      let lit := TrimPrefix lit "=" in
      if HasPrefix lit "'" && HasSuffix lit "'" then
        words ← stringWords lit;
        let '(asmState, address) := emitWords asmState address words in
        expandLiterals asmState address rest
      else if isNumberOrHex lit then
        expandLiterals (genCode1 asmState address (VStr lit)) (address + 1) rest
      else Failed (errorCasl2 asmState ("Invalid literal =" +:+ lit))
  end.

Definition pass1_END (p : Pass1State) (asmState : AssemblerState)
    (label opr : string) (oprArray : list string) : Result Pass1State :=
  if negb (String.eqb label "") then
    Failed (errorCasl2 asmState ("Can't use label " +:+ quoted label +:+ " at END"))
  else
    match oprArray with
    | [] =>
        '(asmState, address) ← expandLiterals asmState (address p) (literalStack p);
        Done (mkPass1State (set_varScope asmState "") false address (literalStack p)
                (comet2startLabel p))
    | _ => Failed (invalidOperand asmState opr)
    end.

Definition pass1_DS (p : Pass1State) (asmState : AssemblerState)
    (opr : string) (oprArray : list string) : Result Pass1State :=
  match oprArray with
  | [o0] =>
      match Atoi o0 with
      | None => Failed (errorCasl2 asmState (quoted o0 +:+ " must be decimal"))
      | Some count =>
          let '(asmState, address) :=
            emitWords asmState (address p) (replicate (Z.to_nat count) 0) in
          Done (mkPass1State asmState (inBlock p) address (literalStack p) (comet2startLabel p))
      end
  | _ => Failed (invalidOperand asmState opr)
  end.

Fixpoint defineConstants (asmState : AssemblerState) (address : Z) (ops : list string)
    : Result (AssemblerState * Z) :=
  match ops with
  | [] => Done (asmState, address)
  | op :: rest =>
      if HasPrefix op "'" && HasSuffix op "'" then
        words ← stringWords op;
        let '(asmState, address) := emitWords asmState address words in
        defineConstants asmState address rest
      else if IsValidLabel op then
        let op := varScope asmState +:+ ":" +:+ op in
        defineConstants (genCode1 asmState address (VStr op)) (address + 1) rest
      else
        defineConstants (genCode1 asmState address (VStr op)) (address + 1) rest
  end.

Definition pass1_DC (p : Pass1State) (asmState : AssemblerState)
    (opr : string) (oprArray : list string) : Result Pass1State :=
  match oprArray with
  | [] => Failed (invalidOperand asmState opr)
  | _ =>
      '(asmState, address) ← defineConstants asmState (address p) oprArray;
      Done (mkPass1State asmState (inBlock p) address (literalStack p) (comet2startLabel p))
  end.

Definition codeOf (inst : string) : Z :=
  match CASL2TBL inst with Some (code, _) => code | None => 0 end.

Definition pass1_INOUT (p : Pass1State) (asmState : AssemblerState) (isOut : bool)
    (opr : string) (oprArray : list string) : Result Pass1State :=
  match oprArray with
  | [o0; o1] =>
      (* the results of the two [checkLabel] calls are dropped *)
      let o0 := varScope asmState +:+ ":" +:+ o0 in
      let o1 := varScope asmState +:+ ":" +:+ o1 in
      let entry := if isOut then SYS_OUT else SYS_IN in
      let a := address p in
      let asmState := genCode2 asmState a (codeOf "PUSH") "0" "0" "1" in
      let asmState := genCode2 asmState (a + 2) (codeOf "PUSH") "0" "0" "2" in
      let asmState := genCode2 asmState (a + 4) (codeOf "LAD") "1" o0 "0" in
      let asmState := genCode2 asmState (a + 6) (codeOf "LAD") "2" o1 "0" in
      let asmState := genCode2 asmState (a + 8) (codeOf "SVC") "0" (itoa entry) "0" in
      let asmState := genCode3 asmState (a + 10) (codeOf "POP") "2" "0" in
      let asmState := genCode3 asmState (a + 11) (codeOf "POP") "1" "0" in
      Done (mkPass1State asmState (inBlock p) (a + 12) (literalStack p) (comet2startLabel p))
  | _ => Failed (invalidOperand asmState opr)
  end.

Definition pass1_RPUSH (p : Pass1State) (asmState : AssemblerState)
    (opr : string) (oprArray : list string) : Result Pass1State :=
  match oprArray with
  | [] =>
      let a := address p in
      let asmState :=
        foldl (fun s j => genCode2 s (a + j * 2) (codeOf "PUSH") "0" "0" (itoa (j + 1)))
              asmState [0; 1; 2; 3; 4; 5; 6] in
      Done (mkPass1State asmState (inBlock p) (a + 14) (literalStack p) (comet2startLabel p))
  | _ => Failed (invalidOperand asmState opr)
  end.

Definition pass1_RPOP (p : Pass1State) (asmState : AssemblerState)
    (opr : string) (oprArray : list string) : Result Pass1State :=
  match oprArray with
  | [] =>
      let a := address p in
      let asmState :=
        foldl (fun s j => genCode3 s (a + j) (codeOf "POP") (itoa (7 - j)) "0")
              asmState [0; 1; 2; 3; 4; 5; 6] in
      Done (mkPass1State asmState (inBlock p) (a + 7) (literalStack p) (comet2startLabel p))
  | _ => Failed (invalidOperand asmState opr)
  end.

(** One turn of the line loop of [pass1]; [i] is the index of the line. *)
Definition pass1Line (p : Pass1State) (i : nat) (lineText : string) : Result Pass1State :=
  let asmState := set_line (asm p) (Z.of_nat i + 1) in
  let p := mkPass1State asmState (inBlock p) (address p) (literalStack p) (comet2startLabel p) in
  if isBlank lineText then Done p
  else
    match ParseLine lineText (line asmState) with
    | inl err => Failed (errorCasl2 asmState ("Syntax error: " +:+ err))
    | inr parsed =>
        let label := Label parsed in
        let inst := Instruction parsed in
        let opr := Join (Operands parsed) "," in
        asmState ←
          (if negb (String.eqb label "") && inBlock p then
             asmState ← addLabel asmState label (address p);
             if String.eqb label (actualLabel asmState) then
               asmState ← updateLabel asmState (virtualLabel asmState) (address p);
               Done (set_actualLabel asmState "")
             else Done asmState
           else Done asmState);
        let p := mkPass1State asmState (inBlock p) (address p) (literalStack p)
                   (comet2startLabel p) in
        if String.eqb inst "" then Done p
        else
          match CASL2TBL inst with
          | None => Failed (errorCasl2 asmState ("Illegal instruction " +:+ quoted inst))
          | Some (code, instType) =>
              let oprArray := Operands parsed in
              let isStart := match instType with START => true | _ => false end in
              if negb (inBlock p) && negb isStart then
                Failed (errorCasl2 asmState ("NO " +:+ quoted "START" +:+ " instruction found"))
              else if match oprArray with
                      | _ :: _ :: o2 :: _ => isGR0 o2
                      | _ => false
                      end then
                Failed (errorCasl2 asmState "Can't use GR0 as an index register")
              else
                match instType with
                | OP1 => pass1_OP1 p asmState code opr oprArray
                | OP2 => pass1_OP2 p asmState code inst opr oprArray
                | OP3 => pass1_OP3 p asmState code opr oprArray
                | OP4 => pass1_OP4 p asmState code opr oprArray
                | OP5 => pass1_OP5 p asmState code opr oprArray
                | START => pass1_START p asmState label oprArray
                | END => pass1_END p asmState label opr oprArray
                | DS => pass1_DS p asmState opr oprArray
                | DC => pass1_DC p asmState opr oprArray
                | IN => pass1_INOUT p asmState false opr oprArray
                | OUT => pass1_INOUT p asmState true opr oprArray
                | RPUSH => pass1_RPUSH p asmState opr oprArray
                | RPOP => pass1_RPOP p asmState opr oprArray
                end
          end
    end.

Fixpoint pass1Lines (p : Pass1State) (i : nat) (lines : list string) : Result Pass1State :=
  match lines with
  | [] => Done p
  | l :: rest => p' ← pass1Line p i l; pass1Lines p' (S i) rest
  end.

(** [pass1] returns the start label; it leaves the symbol table and the
    memory map in [asmState] and the last address in the global
    [addressMax]. *)
Record Pass1Result : Type := mkPass1Result {
  startLabel : string;
  asmState1 : AssemblerState;
  addressMax : Z
}.

Definition pass1 (source : string) (asmState : AssemblerState) : Result Pass1Result :=
  let lines := sourceLines source in
  let p := mkPass1State (set_line asmState 0) false 0 [] "" in
  p ← pass1Lines p 0 lines;
  if inBlock p then Failed (errorCasl2 (asm p) ("NO " +:+ quoted "END" +:+ " instruction found"))
  else Done (mkPass1Result (comet2startLabel p) (asm p) (address p)).

(** ** assembler.go: pass 2 *)

(** The addresses of the memory map, not negative, in ascending order (the
    exchange sort of [pass2]). *)
Fixpoint insertSorted (a : Z) (l : list Z) : list Z :=
  match l with
  | [] => [a]
  | b :: rest => if a <=? b then a :: l else b :: insertSorted a rest
  end.

Definition sortAddresses (l : list Z) : list Z := foldr insertSorted [] l.

Definition addressesOf (mm : gmap Z MemoryEntry) : list Z :=
  sortAddresses (filter (fun addr => 0 <= addr) (elements (dom mm))).

(** [pass2]: one word per address; [None] only when [expandLabel] runs out
    of [fuel]. *)
Definition pass2 (fuel : nat) (asmState : AssemblerState) : option (list Z) :=
  mapM (fun address =>
          match asmMemory asmState !! address with
          | Some memEntry =>
              val ← expandLabel fuel (symtbl asmState) (memVal memEntry);
              Some (val mod 65536)
          | None => Some 0
          end)
       (addressesOf (asmMemory asmState)).

(** [assemble], from the source text on. *)
Record Assembled : Type := mkAssembled {
  comet2bin : list Z;
  asmStartLabel : string;
  asmFinal : AssemblerState;
  asmAddressMax : Z
}.

Definition assemble (fuel : nat) (inputFilepath source : string) : Result (option Assembled) :=
  let asmState := set_file newAssemblerState inputFilepath in
  r ← pass1 source asmState;
  Done (bin ← pass2 fuel (asmState1 r);
        Some (mkAssembled bin (startLabel r) (asmState1 r) (addressMax r))).

(** ** dap.go: launching and breakpoints *)

(** The fields of [DAPServer] that [handleLaunch] and [handleSetBreakpoints]
    touch. *)
Record DAPServer : Type := mkDAPServer {
  dapMemory : list Z;
  dapState : list Z;
  breakpoints : gmap Z bool;
  dapAsmState : option AssemblerState
}.

(** [handleLaunch] after the arguments are read: assemble, then build the
    memory and the initial state.  [None]: the launch response reports
    failure and the server is as before. *)
Definition handleLaunch (fuel : nat) (d : DAPServer) (program source : string)
    : Result (option (DAPServer * Z)) :=
  match assemble fuel program source with
  | Done (Some a) =>
      match expandLabel fuel (symtbl (asmFinal a)) (VStr (asmStartLabel a)) with
      | Some start =>
          Done (Some (mkDAPServer (freshMemory (comet2bin a))
                        (initialState (start mod 65536)) (breakpoints d) (Some (asmFinal a)),
                      asmAddressMax a))
      | None => Done None
      end
  | Done None => Done None
  | Failed _ => Done None
  | Aborted r => Aborted r
  end.

(** [for addr, entry := range d.asmState.memory]: Go visits the entries of a
    map in an order it does not specify and that changes from one loop to
    the next.  [order] is the order of one loop: every key once. *)
Definition iterationOrder (mm : gmap Z MemoryEntry) (order : list Z) : Prop :=
  order ≡ₚ elements (dom mm).

Fixpoint firstAddressWithLine (mm : gmap Z MemoryEntry) (order : list Z) (line : Z) : Z :=
  match order with
  | [] => -1
  | addr :: rest =>
      match mm !! addr with
      | Some entry => if memLine entry =? line then addr else firstAddressWithLine mm rest line
      | None => firstAddressWithLine mm rest line
      end
  end.

Definition findAddressForLine (d : DAPServer) (order : list Z) (line : Z) : Z :=
  match dapAsmState d with
  | None => -1
  | Some asmState => firstAddressWithLine (asmMemory asmState) order line
  end.

(** [handleSetBreakpoints]: [lines] are the requested lines, [orders k] the
    iteration order of the map at the [k]-th call of [findAddressForLine].
    The result is the server and the [verified]/[line] pairs of the
    response. *)
Fixpoint setBreakpointLines (d : DAPServer) (k : nat) (orders : nat -> list Z)
    (lines : list Z) (bps : gmap Z bool) : gmap Z bool * list (bool * Z) :=
  match lines with
  | [] => (bps, [])
  | line :: rest =>
      let address := findAddressForLine d (orders k) line in
      if 0 <=? address then
        let '(bps', resp) := setBreakpointLines d (S k) orders rest (<[address := true]> bps) in
        (bps', (true, line) :: resp)
      else
        let '(bps', resp) := setBreakpointLines d (S k) orders rest bps in
        (bps', (false, line) :: resp)
  end.

Definition handleSetBreakpoints (d : DAPServer) (orders : nat -> list Z) (lines : list Z)
    : DAPServer * list (bool * Z) :=
  let '(bps, resp) := setBreakpointLines d 0 orders lines ∅ in
  (mkDAPServer (dapMemory d) (dapState d) bps (dapAsmState d), resp).

(** ** The programs of the scenarios *)

Definition LF : string := String "010" EmptyString.

(** S1: simple add. *)
Definition S1_source : string :=
  "MAIN START" +:+ LF +:+
  "     LD    GR0,=10" +:+ LF +:+
  "     LD    GR1,=20" +:+ LF +:+
  "     ADDA  GR0,GR1" +:+ LF +:+
  "     RET" +:+ LF +:+
  "     END" +:+ LF.

(** S4: literal at END. *)
Definition S4_source : string :=
  "MAIN START" +:+ LF +:+ " LD GR0,=#00FF" +:+ LF +:+ " RET" +:+ LF +:+ " END" +:+ LF.

(** The image S1 is meant to assemble to: the two literals follow RET. *)
Definition S1_image : list Z := [0x1000; 6; 0x1010; 7; 0x2401; 0x8100; 10; 20].

(** S1 with the literals written as constants after RET. *)
Definition S1_constants_source : string :=
  "MAIN START" +:+ LF +:+
  "     LD    GR0,A" +:+ LF +:+
  "     LD    GR1,B" +:+ LF +:+
  "     ADDA  GR0,GR1" +:+ LF +:+
  "     RET" +:+ LF +:+
  "A    DC    10" +:+ LF +:+
  "B    DC    20" +:+ LF +:+
  "     END" +:+ LF.

(** Running the machine: [steps] calls of [stepExec], stopping at the first
    call that returns an error or asks for input. *)
Fixpoint run (steps : nat) (addressMax : Z) (m : Machine)
    : Go (bool * option Termination * Machine) :=
  match steps with
  | O => Ok (false, None, m)
  | S n =>
      r ← stepExec addressMax m;
      match r with
      | (false, None, m') => run n addressMax m'
      | _ => Ok r
      end
  end.

Definition machineOf (memory state : list Z) : Machine :=
  mkMachine memory state INPUT_MODE_CMD [].

(** Reading a register of the stored state. *)
Definition reg (m : Machine) (slot : Z) : Z := default 0 (state m !! Z.to_nat slot).

(** A register file as every front end builds it: eleven slots. *)
Definition wfState (st : list Z) : Prop := length st = 11%nat.
(** A memory of 16-bit words. *)
Definition wfMemory (mem : list Z) : Prop := Forall (fun w => 0 <= w < 65536) mem.

(** The fields of the instruction at PC, and its effective address, in a
    well-formed state. *)
Definition instWord (m : Machine) : Z := memGet (memory m) (reg m PC).
Definition opcode (m : Machine) : Z := Z.shiftr (instWord m) 8.
Definition grField (m : Machine) : Z := Z.land (Z.shiftr (instWord m) 4) 0xf.
Definition xrField (m : Machine) : Z := Z.land (instWord m) 0xf.
Definition adrWord (m : Machine) : Z := memGet (memory m) (add64 (reg m PC) 1).
Definition eadrOf (m : Machine) : Z :=
  Z.land (if (1 <=? xrField m) && (xrField m <=? 7)
          then add64 (adrWord m) (reg m (GR0 + xrField m))
          else adrWord m) 0xffff.

(** What a step leaves in the register file. *)
Definition stepState (addressMax : Z) (m : Machine) : Go (bool * option Termination * list Z) :=
  '(stop, err, m') ← stepExec addressMax m; Ok (stop, err, state m').

Definition runState (steps : nat) (addressMax : Z) (m : Machine)
    : Go (bool * option Termination * list Z) :=
  '(stop, err, m') ← run steps addressMax m; Ok (stop, err, state m').

(** A property of all 16-bit words, checked nibble by nibble. *)
Definition nibbles : list Z := [0; 1; 2; 3; 4; 5; 6; 7; 8; 9; 10; 11; 12; 13; 14; 15].

Definition allWords (p : Z -> bool) : bool :=
  forallb (fun a => forallb (fun b => forallb (fun c => forallb (fun d =>
    p (a * 4096 + b * 256 + c * 16 + d)) nibbles) nibbles) nibbles) nibbles.

(** Four characters, none of them the letter G. *)
Definition hex4_ok (s : string) : bool :=
  match s with
  | String a (String b (String c (String d EmptyString))) =>
      negb (Ascii.eqb a "G") && negb (Ascii.eqb b "G")
      && negb (Ascii.eqb c "G") && negb (Ascii.eqb d "G")
  | _ => false
  end.

(** What the regular expression of [stepExec] answers on the operand text
    [parse] builds for an instruction of type [ty]. *)
Definition regregForm (ty : InstructionType) (gr xr : Z) : bool :=
  match ty with
  | OP5 => (gr <? 8) && ((xr <? 8) || (10 <=? xr))
  | _ => false
  end.


(** ** Notions used to state the properties *)

(** The instruction at PC is DIVA or DIVL with registers in GR0..GR7. *)
Definition isDivision (m : Machine) : Prop :=
  opcode m = 0x29 \/ opcode m = 0x2b \/
  ((opcode m = 0x2d \/ opcode m = 0x2f) /\ xrField m <= 7).
Definition regAddrForm (m : Machine) : bool := (opcode m =? 0x29) || (opcode m =? 0x2b).
Definition isDIVA (m : Machine) : bool := (opcode m =? 0x29) || (opcode m =? 0x2d).
(** The divisor as [stepExec] tests it. *)
Definition divisor (m : Machine) : Z :=
  if regAddrForm m then memGet (memory m) (eadrOf m)
  else if isDIVA m then signed (reg m (GR0 + xrField m))
  else reg m (GR0 + xrField m).
Definition instSize (m : Machine) : Z := if regAddrForm m then 2 else 1.
Definition divDiagnostic (m : Machine) : string :=
  if isDIVA m then "Error: Division by zero in DIVA." else "Error: Division by zero in DIVL.".

(** Every symbol holds an integer. *)
Definition symInts (t : gmap string SymbolEntry) : Prop :=
  forall k e, t !! k = Some e -> exists v, symVal e = VInt v.

(** The stores so far are at 0, 1, ..., [addr - 1], in this order, the
    memory map has exactly these addresses, and every symbol is resolved. *)
Definition dense (a : AssemblerState) (addr : Z) : Prop :=
  0 <= addr
  /\ emitted a = seqZ 0 addr
  /\ dom (asmMemory a) = list_to_set (emitted a)
  /\ symInts (symtbl a).


(** A program with a two-word instruction on its line 2, and a debug
    session that has launched it. *)
Definition S7_source : string :=
  "MAIN START" +:+ LF +:+ " LAD GR1,5" +:+ LF +:+ " RET" +:+ LF +:+ " END" +:+ LF.

Definition S7_asmState : AssemblerState :=
  match pass1 S7_source (set_file newAssemblerState "s7.cas") with
  | Done r => asmState1 r
  | _ => newAssemblerState
  end.

Definition S7_server : DAPServer :=
  mkDAPServer (freshMemory [0x1210; 5; 0x8100]) (initialState 0) {[ 7 := true ]}
    (Some S7_asmState).

(** Machines at which the general theorems are exercised. *)
Definition divisionMachine : Machine :=
  machineOf (freshMemory [0x2D01; 0x0000])
    [0; 0; 0xFFFF; 0; 0; 0; 0; 0; 0; 0; STACK_TOP].

Definition pushPopMachine : Machine :=
  machineOf (freshMemory [0x7002; 0x1230; 0x7110; 0x8100])
    [0; 0; 0; 0; 4; 0; 0; 0; 0; 0; STACK_TOP - 1].

Definition fullStackMachine : Machine :=
  machineOf (freshMemory [0x7000; 0x1234; 0x7110; 0x8100])
    [0; 0; 0; 0; 0; 0; 0; 0; 0; 0; 5].

Definition emptyStackMachine : Machine :=
  machineOf (freshMemory [0x7110; 0x8100])
    [0; 0; 0; 0; 0; 0; 0; 0; 0; 0; STACK_TOP].


(** A token that ends the scan of a line. *)
Definition endsLine (ty : TokenType) : bool :=
  match ty with
  | TOKEN_EOF | TOKEN_COMMENT | TOKEN_NEWLINE => true
  | _ => false
  end.

(** The OVERFLOW bit of a flag word, the signed range and the range of a
    word. *)
Definition overflowSet (fr : Z) : Prop := Z.land fr FR_OVER = FR_OVER.
Definition inSigned (v : Z) : Prop := MIN_SIGNED <= v <= MAX_SIGNED.
Definition word16 (v : Z) : Prop := 0 <= v < 65536.

(** * Properties of the emulator *)

(** ** General facts *)

Lemma nibble_In x : 0 <= x < 16 -> In x nibbles.
Proof.
  intros H.
  assert (x = 0 \/ x = 1 \/ x = 2 \/ x = 3 \/ x = 4 \/ x = 5 \/ x = 6 \/ x = 7 \/
          x = 8 \/ x = 9 \/ x = 10 \/ x = 11 \/ x = 12 \/ x = 13 \/ x = 14 \/ x = 15) as D by lia.
  unfold nibbles. cbn [In]. intuition auto.
Qed.

Lemma allWords_spec p v : allWords p = true -> 0 <= v < 65536 -> p v = true.
Proof.
  unfold allWords. intros H Hv.
  rewrite forallb_forall in H.
  specialize (H (v / 4096) ltac:(apply nibble_In; Z.div_mod_to_equations; lia)).
  rewrite forallb_forall in H.
  specialize (H (v / 256 mod 16) ltac:(apply nibble_In; Z.div_mod_to_equations; lia)).
  rewrite forallb_forall in H.
  specialize (H (v / 16 mod 16) ltac:(apply nibble_In; Z.div_mod_to_equations; lia)).
  rewrite forallb_forall in H.
  specialize (H (v mod 16) ltac:(apply nibble_In; Z.div_mod_to_equations; lia)).
  replace (v / 4096 * 4096 + v / 256 mod 16 * 256 + v / 16 mod 16 * 16 + v mod 16) with v in H
    by (Z.div_mod_to_equations; lia).
  exact H.
Qed.

Lemma hex4_all : allWords (fun v => hex4_ok (hex v 4)) = true.
Proof. vm_compute. reflexivity. Qed.

Lemma hex4_word v : 0 <= v < 65536 -> hex4_ok (hex v 4) = true.
Proof. apply (allWords_spec (fun v => hex4_ok (hex v 4)) v hex4_all). Qed.

Ltac enum16 x :=
  let H := fresh in
  assert (H : x = 0 \/ x = 1 \/ x = 2 \/ x = 3 \/ x = 4 \/ x = 5 \/ x = 6 \/ x = 7 \/
              x = 8 \/ x = 9 \/ x = 10 \/ x = 11 \/ x = 12 \/ x = 13 \/ x = 14 \/ x = 15) by lia;
  repeat (destruct H as [H | H]; [subst x|]); [..|subst x].


Lemma MatchString_cons c s :
  grIsGr_MatchString (String c s) = grIsGr_here (String c s) || grIsGr_MatchString s.
Proof. reflexivity. Qed.

Lemma grIsGr_here_notG c s : Ascii.eqb c "G" = false -> grIsGr_here (String c s) = false.
Proof.
  intros H. destruct s as [|c1 [|c2 [|c3 [|c4 [|c5 [|c6 [|c7 s]]]]]]]; cbn [grIsGr_here];
    try reflexivity.
  rewrite H. reflexivity.
Qed.

Lemma MatchString_skip c s :
  Ascii.eqb c "G" = false -> grIsGr_MatchString (String c s) = grIsGr_MatchString s.
Proof. intros H. rewrite MatchString_cons, grIsGr_here_notG by exact H. reflexivity. Qed.

Ltac close_terms :=
  repeat match goal with
         | |- context [itoa ?n] =>
             let r := eval vm_compute in (itoa n) in change (itoa n) with r
         | |- context [?a <? ?b] =>
             let r := eval vm_compute in (a <? b) in change (a <? b) with r
         end;
  cbv beta iota zeta delta [String.append].

Ltac scan_text :=
  repeat first
    [ rewrite MatchString_skip by (assumption || reflexivity)
    | match goal with
      | |- context [grIsGr_MatchString (String ?c ?s)] =>
          rewrite (MatchString_cons c s);
          let r := eval vm_compute in (grIsGr_here (String c s)) in
          change (grIsGr_here (String c s)) with r;
          cbn [orb]
      end ].

Lemma grIsGr_OP1 gr xr h :
  0 <= gr < 16 -> 0 <= xr < 16 -> hex4_ok h = true ->
  grIsGr_MatchString
    (let oprSym := "GR" +:+ itoa gr +:+ ",   #" +:+ h in
     if 0 <? xr then oprSym +:+ ", GR" +:+ itoa xr else oprSym) = false.
Proof.
  intros Hg Hx Hh.
  destruct h as [|a [|b [|c [|d [|? ?]]]]]; try discriminate.
  cbn in Hh. apply andb_prop in Hh as [Hh Hd]. apply andb_prop in Hh as [Hh Hc].
  apply andb_prop in Hh as [Ha Hb].
  apply negb_true_iff in Ha, Hb, Hc, Hd.
  enum16 gr; enum16 xr; close_terms; scan_text; reflexivity.
Qed.

Lemma grIsGr_OP5 gr xr :
  0 <= gr < 16 -> 0 <= xr < 16 ->
  grIsGr_MatchString ("GR" +:+ itoa gr +:+ ", GR" +:+ itoa xr)
  = (gr <? 8) && ((xr <? 8) || (10 <=? xr)).
Proof.
  intros Hg Hx. enum16 gr; enum16 xr; vm_compute; reflexivity.
Qed.

Lemma memGet_range mem a : wfMemory mem -> 0 <= memGet mem a < 65536.
Proof.
  intros Hwf. unfold memGet.
  destruct ((a <? 0) || (Z.of_nat (length mem) <=? a)); [lia|].
  destruct (mem !! Z.to_nat a) as [w|] eqn:E; cbn [default]; [|lia].
  unfold wfMemory in Hwf. rewrite Forall_forall in Hwf.
  apply Hwf. apply list_elem_of_lookup. eauto.
Qed.

Lemma nibble_range x : 0 <= Z.land x 0xf < 16.
Proof.
  change 0xf with (Z.ones 4). rewrite Z.land_ones by lia.
  apply Z.mod_pos_bound. reflexivity.
Qed.

Lemma index_wf st i :
  0 <= i < Z.of_nat (length st) -> index st i = Ok (default 0 (st !! Z.to_nat i)).
Proof.
  intros Hi. unfold index.
  replace ((0 <=? i) && (i <? Z.of_nat (length st))) with true
    by (symmetry; apply andb_true_intro; split; [apply Z.leb_le|apply Z.ltb_lt]; lia).
  destruct (st !! Z.to_nat i) as [v|] eqn:E; [reflexivity|].
  apply lookup_ge_None in E. lia.
Qed.

Lemma assign_wf st i v :
  0 <= i < Z.of_nat (length st) -> assign st i v = Ok (<[Z.to_nat i := v]> st).
Proof.
  intros Hi. unfold assign.
  replace ((0 <=? i) && (i <? Z.of_nat (length st))) with true
    by (symmetry; apply andb_true_intro; split; [apply Z.leb_le|apply Z.ltb_lt]; lia).
  reflexivity.
Qed.

Lemma regs_get_wf m i :
  wfState (state m) -> 0 <= i <= 7 -> regs_get m i = Ok (reg m (GR0 + i)).
Proof.
  intros Hwf Hi. unfold regs_get, reg.
  replace ((0 <=? i) && (i <? 8)) with true
    by (symmetry; apply andb_true_intro; split; [apply Z.leb_le|apply Z.ltb_lt]; lia).
  apply index_wf. unfold wfState in Hwf. rewrite Hwf. unfold GR0. lia.
Qed.

Lemma regs_set_wf m i v :
  wfState (state m) -> 0 <= i <= 7 ->
  regs_set m i v = Ok (with_state m (<[Z.to_nat (GR0 + i) := v]> (state m))).
Proof.
  intros Hwf Hi. unfold regs_set.
  replace ((0 <=? i) && (i <? 8)) with true
    by (symmetry; apply andb_true_intro; split; [apply Z.leb_le|apply Z.ltb_lt]; lia).
  rewrite assign_wf; [reflexivity|].
  unfold wfState in Hwf. rewrite Hwf. unfold GR0. lia.
Qed.

Lemma regs_upd_wf m i f :
  wfState (state m) -> 0 <= i <= 7 ->
  regs_upd m i f = Ok (with_state m (<[Z.to_nat (GR0 + i) := f (reg m (GR0 + i))]> (state m))).
Proof.
  intros Hwf Hi. unfold regs_upd. rewrite regs_get_wf by assumption.
  cbn. apply regs_set_wf; assumption.
Qed.

Lemma wfState_insert st i v : wfState st -> wfState (<[i := v]> st).
Proof. unfold wfState. rewrite length_insert. trivial. Qed.

Lemma reg_insert_eq m i v :
  wfState (state m) -> 0 <= i <= 10 ->
  reg (with_state m (<[Z.to_nat i := v]> (state m))) i = v.
Proof.
  intros Hwf Hi. unfold reg. cbn.
  rewrite list_lookup_insert_eq; [reflexivity|]. unfold wfState in Hwf. lia.
Qed.

Lemma reg_insert_ne m i j v :
  0 <= i -> 0 <= j -> i <> j ->
  reg (with_state m (<[Z.to_nat i := v]> (state m))) j = reg m j.
Proof.
  intros Hi Hj Hne. unfold reg. cbn.
  rewrite list_lookup_insert_ne; [reflexivity|]. lia.
Qed.

Lemma bind_Ok {A B : Type} (a : A) (f : A -> Go B) : (Ok a ≫= f) = f a.
Proof. reflexivity. Qed.

Lemma grIsGr_OP2 xr h :
  0 <= xr < 16 -> hex4_ok h = true ->
  grIsGr_MatchString
    (let oprSym := "#" +:+ h in
     if 0 <? xr then oprSym +:+ ", GR" +:+ itoa xr else oprSym) = false.
Proof.
  intros Hx Hh.
  destruct h as [|a [|b [|c [|d [|? ?]]]]]; try discriminate.
  cbn in Hh. apply andb_prop in Hh as [Hh Hd]. apply andb_prop in Hh as [Hh Hc].
  apply andb_prop in Hh as [Ha Hb].
  apply negb_true_iff in Ha, Hb, Hc, Hd.
  enum16 xr; close_terms; scan_text; reflexivity.
Qed.

Lemma grIsGr_OP3 gr : 0 <= gr < 16 -> grIsGr_MatchString ("GR" +:+ itoa gr) = false.
Proof. intros Hg. enum16 gr; vm_compute; reflexivity. Qed.

Lemma COMET2TBL_types op name ty :
  COMET2TBL op = Some (name, ty) ->
  ty = OP1 \/ ty = OP2 \/ ty = OP3 \/ ty = OP4 \/ ty = OP5.
Proof.
  unfold COMET2TBL.
  repeat match goal with
         | |- context [if ?b then _ else _] => destruct b
         end; intros H; inversion H; auto.
Qed.

Lemma reg_index m i :
  wfState (state m) -> 0 <= i <= 10 -> index (state m) i = Ok (reg m i).
Proof. intros Hwf Hi. unfold reg. apply index_wf. unfold wfState in Hwf. lia. Qed.

Lemma parse_wf m name ty :
  wfState (state m) -> wfMemory (memory m) ->
  COMET2TBL (opcode m) = Some (name, ty) ->
  exists opr sz,
    parse (memory m) (state m) = Ok (name, opr, sz)
    /\ grIsGr_MatchString opr = regregForm ty (grField m) (xrField m).
Proof.
  intros Hst Hmem Htbl.
  pose proof (nibble_range (Z.shiftr (instWord m) 4)) as Hg.
  pose proof (nibble_range (instWord m)) as Hx.
  pose proof (hex4_word _ (memGet_range (memory m) (add64 (reg m PC) 1) Hmem)) as Hh.
  unfold parse. rewrite reg_index by (assumption || (unfold PC; lia)). rewrite bind_Ok.
  fold (instWord m). fold (opcode m). rewrite Htbl.
  destruct (COMET2TBL_types _ _ _ Htbl) as [-> | [-> | [-> | [-> | ->]]]];
    eexists; eexists; (split; [reflexivity|]); unfold regregForm, grField, xrField.
  - apply grIsGr_OP1; assumption.
  - apply grIsGr_OP2; assumption.
  - apply grIsGr_OP3; assumption.
  - reflexivity.
  - apply grIsGr_OP5; assumption.
Qed.

Lemma effectiveAddress_wf m :
  wfState (state m) ->
  effectiveAddress m (xrField m) (adrWord m) = Ok (eadrOf m).
Proof.
  intros Hst. unfold effectiveAddress, eadrOf.
  destruct ((1 <=? xrField m) && (xrField m <=? 7)) eqn:E; [|reflexivity].
  apply andb_prop in E as [E1 E2]. apply Z.leb_le in E1, E2.
  rewrite regs_get_wf by (assumption || lia). reflexivity.
Qed.

Lemma stepExec_wf addressMax m name ty :
  wfState (state m) -> wfMemory (memory m) ->
  COMET2TBL (opcode m) = Some (name, ty) ->
  stepExec addressMax m =
    (execute addressMax name (regregForm ty (grField m) (xrField m)) m
       (grField m) (xrField m) (eadrOf m) (reg m PC) (reg m FR) (reg m SP)
     ≫= commit).
Proof.
  intros Hst Hmem Htbl.
  destruct (parse_wf m name ty Hst Hmem Htbl) as (opr & sz & Hp & Hr).
  unfold stepExec. rewrite Hp, bind_Ok.
  rewrite !reg_index by (assumption || (unfold PC, FR, SP; lia)).
  rewrite !bind_Ok.
  replace (Z.of_nat (length (state m)) <? GR7 + 1) with false
    by (unfold wfState in Hst; rewrite Hst; reflexivity).
  rewrite bind_Ok. cbv zeta.
  fold (instWord m). fold (grField m). fold (xrField m). fold (adrWord m).
  rewrite effectiveAddress_wf by assumption. rewrite bind_Ok, Hr. reflexivity.
Qed.

Lemma commit_Fall pc fr sp stop m :
  wfState (state m) ->
  commit (Fall pc fr sp stop m)
  = Ok (stop, None,
        with_state m (<[Z.to_nat SP := sp]> (<[Z.to_nat FR := fr]> (<[Z.to_nat PC := pc]> (state m))))).
Proof.
  intros Hst. unfold commit. unfold wfState in Hst.
  rewrite assign_wf by (rewrite Hst; unfold PC; lia). rewrite bind_Ok.
  rewrite assign_wf by (rewrite length_insert, Hst; unfold FR; lia). rewrite bind_Ok.
  rewrite assign_wf by (rewrite !length_insert, Hst; unfold SP; lia). rewrite bind_Ok.
  reflexivity.
Qed.

Lemma signed_zero x : signed x = 0 -> x = 0.
Proof.
  unfold signed. destruct ((32768 <=? x) && (x <? 65536)) eqn:E; [|trivial].
  apply andb_prop in E as [E1 E2]. apply Z.leb_le in E1. apply Z.ltb_lt in E2. lia.
Qed.

Lemma signed_low16 x : Z.land (signed x) 0xffff = Z.land x 0xffff.
Proof.
  unfold signed. destruct ((32768 <=? x) && (x <? 65536)); [|reflexivity].
  change 0xffff with (Z.ones 16). rewrite !Z.land_ones by lia.
  change (2 ^ 16) with 65536.
  replace (x - 65536) with (x + (-1) * 65536) by lia. apply Z_mod_plus_full.
Qed.

Ltac reg_simpl Hst :=
  unfold reg; cbn [state with_state with_memory with_inputMode println memory stdout inputMode];
  repeat first
    [ rewrite list_lookup_insert_eq
        by (rewrite ?length_insert; unfold wfState in Hst; rewrite Hst;
            unfold PC, FR, SP, GR0; lia)
    | rewrite list_lookup_insert_ne by (unfold PC, FR, SP, GR0; lia) ];
  repeat match goal with
         | |- context [default 0 (state ?m !! Z.to_nat ?i)] =>
             change (default 0 (state m !! Z.to_nat i)) with (reg m i)
         end;
  cbn [default];
  try reflexivity.


Lemma wrap64_small z : - 2 ^ 63 <= z < 2 ^ 63 -> wrap64 z = z.
Proof.
  intros H. unfold wrap64. rewrite Z.mod_small; lia.
Qed.

Lemma execute_PUSH aM rr m gr xr eadr pc fr sp :
  execute aM "PUSH" rr m gr xr eadr pc fr sp
  = (if sub64 sp 1 <=? aM then Ok (Leave (StackOverflow pc (sub64 sp 1)) m)
     else Ok (Fall (add64 pc 2) fr (sub64 sp 1) false
                (with_memory m (memPut (memory m) (sub64 sp 1) eadr)))).
Proof. reflexivity. Qed.

Lemma execute_POP aM rr m gr xr eadr pc fr sp :
  execute aM "POP" rr m gr xr eadr pc fr sp
  = (regs_set m gr (memGet (memory m) sp) ≫= fun m =>
     if STACK_TOP <? add64 sp 1 then Ok (Leave (StackUnderflow pc (add64 sp 1)) m)
     else Ok (Fall (add64 pc 1) fr (add64 sp 1) false m)).
Proof. reflexivity. Qed.

Lemma memGet_memPut_eq mem a v :
  0 <= a < Z.of_nat (length mem) -> memGet (memPut mem a v) a = Z.land v 0xffff.
Proof.
  intros Ha. unfold memGet, memPut.
  replace (a <? 0) with false by (symmetry; apply Z.ltb_ge; lia).
  replace (Z.of_nat (length mem) <=? a) with false by (symmetry; apply Z.leb_gt; lia).
  rewrite length_insert.
  replace (Z.of_nat (length mem) <=? a) with false by (symmetry; apply Z.leb_gt; lia).
  cbn [orb]. rewrite list_lookup_insert_eq by lia. reflexivity.
Qed.

Lemma wfMemory_memPut mem a v : wfMemory mem -> wfMemory (memPut mem a v).
Proof.
  intros Hwf. unfold memPut.
  destruct (a <? 0); [exact Hwf|].
  destruct (Z.of_nat (length mem) <=? a); [exact Hwf|].
  unfold wfMemory in *. apply Forall_insert; [exact Hwf|].
  change 0xffff with (Z.ones 16). rewrite Z.land_ones by lia.
  apply Z.mod_pos_bound. reflexivity.
Qed.

Lemma eadrOf_masked m : Z.land (eadrOf m) 0xffff = eadrOf m.
Proof.
  unfold eadrOf. rewrite <- Z.land_assoc. reflexivity.
Qed.

(** ** Division by zero *)

(** C2.  Division by zero.  When the instruction at PC is DIVA or DIVL (with
    registers in GR0..GR7) and the divisor is zero, the step returns without
    error and without a stop request, FR is OVERFLOW|ZERO, one diagnostic
    line is printed, PC is at the next instruction, and the dividend register
    is unchanged as a 16-bit word: its low 16 bits are those it had.  The
    stored integer is the same for DIVL; for DIVA it is the sign-extended
    dividend.  The other registers, SP and the memory are unchanged. *)
Theorem C2_division_by_zero_continues :
  forall (addressMax : Z) (m : Machine),
    wfState (state m) -> wfMemory (memory m) ->
    isDivision m -> grField m <= 7 -> divisor m = 0 ->
    exists m',
      stepExec addressMax m = Ok (false, None, m')
      /\ reg m' FR = Z.lor FR_OVER FR_ZERO
      /\ stdout m' = stdout m ++ [divDiagnostic m]
      /\ reg m' PC = add64 (reg m PC) (instSize m)
      /\ Z.land (reg m' (GR0 + grField m)) 0xffff = Z.land (reg m (GR0 + grField m)) 0xffff
      /\ reg m' (GR0 + grField m)
         = (if isDIVA m then signed (reg m (GR0 + grField m)) else reg m (GR0 + grField m))
      /\ (forall i, 0 <= i <= 7 -> i <> grField m -> reg m' (GR0 + i) = reg m (GR0 + i))
      /\ reg m' SP = reg m SP
      /\ memory m' = memory m.
Proof.
  intros addressMax m Hst Hmem Hdiv Hgr Hzero.
  pose proof (nibble_range (Z.shiftr (instWord m) 4)) as Hg. fold (grField m) in Hg.
  pose proof (nibble_range (instWord m)) as Hx. fold (xrField m) in Hx.
  unfold divisor, instSize, divDiagnostic, regAddrForm, isDIVA in *.
  destruct Hdiv as [Hop | [Hop | [[Hop | Hop] Hxr]]]; rewrite Hop in *; cbn [Z.eqb Pos.eqb orb] in *.
  - (* DIVA r,adr,x *)
    rewrite (stepExec_wf addressMax m "DIVA" OP1 Hst Hmem) by (rewrite Hop; reflexivity).
    change (execute addressMax "DIVA" ?rr ?m ?g ?x ?e ?p ?f ?s) with (execDIVA rr m g x e p s).
    unfold execDIVA, regregForm. cbn [negb].
    rewrite regs_upd_wf by (assumption || lia). rewrite bind_Ok.
    cbn [memory with_state]. rewrite Hzero. cbn [Z.eqb].
    rewrite bind_Ok, commit_Fall by (apply wfState_insert; exact Hst).
    eexists. split; [reflexivity|].
    repeat split; try (reg_simpl Hst).
    + apply signed_low16.
    + intros i Hi Hne. reg_simpl Hst.
  - (* DIVL r,adr,x *)
    rewrite (stepExec_wf addressMax m "DIVL" OP1 Hst Hmem) by (rewrite Hop; reflexivity).
    change (execute addressMax "DIVL" ?rr ?m ?g ?x ?e ?p ?f ?s) with (execDIVL rr m g x e p s).
    unfold execDIVL, regregForm. cbn [negb]. cbv zeta.
    rewrite Hzero. cbn [Z.eqb].
    rewrite bind_Ok, commit_Fall by exact Hst.
    eexists. split; [reflexivity|].
    repeat split; try (reg_simpl Hst).
    intros i Hi Hne. reg_simpl Hst.
  - (* DIVA r1,r2 *)
    apply signed_zero in Hzero.
    rewrite (stepExec_wf addressMax m "DIVA" OP5 Hst Hmem) by (rewrite Hop; reflexivity).
    change (execute addressMax "DIVA" ?rr ?m ?g ?x ?e ?p ?f ?s) with (execDIVA rr m g x e p s).
    unfold execDIVA, regregForm.
    replace ((grField m <? 8) && ((xrField m <? 8) || (10 <=? xrField m))) with true
      by (symmetry; apply andb_true_intro; split;
          [apply Z.ltb_lt; lia | apply orb_true_intro; left; apply Z.ltb_lt; lia]).
    cbn [negb].
    rewrite regs_upd_wf by (assumption || lia). rewrite bind_Ok.
    rewrite regs_upd_wf by ((apply wfState_insert; assumption) || lia). rewrite bind_Ok.
    rewrite regs_get_wf by ((cbn [state with_state]; repeat apply wfState_insert; assumption) || lia).
    rewrite bind_Ok.
    set (x := reg _ (GR0 + xrField m)).
    assert (Hx0 : x = 0).
    { subst x. destruct (Z.eq_dec (grField m) (xrField m)) as [e|ne].
      - rewrite <- e in *. reg_simpl Hst. rewrite Hzero. reflexivity.
      - reg_simpl Hst. rewrite Hzero. reflexivity. }
    rewrite Hx0. cbn [Z.eqb].
    rewrite bind_Ok, commit_Fall
      by (cbn [state with_state println]; repeat apply wfState_insert; exact Hst).
    eexists. split; [reflexivity|].
    repeat split; try (reg_simpl Hst).
    + destruct (Z.eq_dec (grField m) (xrField m)) as [e|ne].
      * rewrite <- e in *. reg_simpl Hst. rewrite Hzero. reflexivity.
      * reg_simpl Hst. apply signed_low16.
    + destruct (Z.eq_dec (grField m) (xrField m)) as [e|ne].
      * rewrite <- e in *. reg_simpl Hst. rewrite Hzero. reflexivity.
      * reg_simpl Hst.
    + intros i Hi Hne.
      destruct (Z.eq_dec i (xrField m)) as [e|ne].
      * subst i. reg_simpl Hst. rewrite Hzero. reflexivity.
      * reg_simpl Hst.
  - (* DIVL r1,r2 *)
    rewrite (stepExec_wf addressMax m "DIVL" OP5 Hst Hmem) by (rewrite Hop; reflexivity).
    change (execute addressMax "DIVL" ?rr ?m ?g ?x ?e ?p ?f ?s) with (execDIVL rr m g x e p s).
    unfold execDIVL, regregForm.
    replace ((grField m <? 8) && ((xrField m <? 8) || (10 <=? xrField m))) with true
      by (symmetry; apply andb_true_intro; split;
          [apply Z.ltb_lt; lia | apply orb_true_intro; left; apply Z.ltb_lt; lia]).
    cbn [negb].
    rewrite regs_get_wf by (assumption || lia). rewrite bind_Ok.
    rewrite Hzero. cbn [Z.eqb].
    rewrite bind_Ok, commit_Fall by exact Hst.
    eexists. split; [reflexivity|].
    repeat split; try (reg_simpl Hst).
    intros i Hi Hne. reg_simpl Hst.
Qed.

(** ** The stack *)

Lemma memGet_memPut_ne mem a b v : a <> b -> memGet (memPut mem a v) b = memGet mem b.
Proof.
  intros Hne. unfold memGet, memPut.
  destruct (a <? 0) eqn:E1; [reflexivity|].
  destruct (Z.of_nat (length mem) <=? a) eqn:E2; [reflexivity|].
  rewrite length_insert.
  destruct ((b <? 0) || (Z.of_nat (length mem) <=? b)) eqn:E3; [reflexivity|].
  apply orb_false_elim in E3 as [E3 E4].
  apply Z.ltb_ge in E1, E3. apply Z.leb_gt in E2, E4.
  rewrite list_lookup_insert_ne by lia. reflexivity.
Qed.

(** The step of a PUSH that does not overflow. *)
Lemma PUSH_step addressMax m :
  wfState (state m) -> wfMemory (memory m) -> opcode m = 0x70 ->
  addressMax < sub64 (reg m SP) 1 ->
  stepExec addressMax m
  = Ok (false, None,
        with_state (with_memory m (memPut (memory m) (sub64 (reg m SP) 1) (eadrOf m)))
          (<[Z.to_nat SP := sub64 (reg m SP) 1]>
             (<[Z.to_nat FR := reg m FR]>
                (<[Z.to_nat PC := add64 (reg m PC) 2]> (state m))))).
Proof.
  intros Hst Hmem Hop Hsp.
  rewrite (stepExec_wf addressMax m "PUSH" OP2 Hst Hmem) by (rewrite Hop; reflexivity).
  rewrite execute_PUSH.
  replace (sub64 (reg m SP) 1 <=? addressMax) with false by (symmetry; apply Z.leb_gt; lia).
  rewrite bind_Ok, commit_Fall by exact Hst. reflexivity.
Qed.

(** The step of a POP that does not underflow. *)
Lemma POP_step addressMax m :
  wfState (state m) -> wfMemory (memory m) -> opcode m = 0x71 -> grField m <= 7 ->
  add64 (reg m SP) 1 <= STACK_TOP ->
  stepExec addressMax m
  = Ok (false, None,
        with_state m
          (<[Z.to_nat SP := add64 (reg m SP) 1]>
             (<[Z.to_nat FR := reg m FR]>
                (<[Z.to_nat PC := add64 (reg m PC) 1]>
                   (<[Z.to_nat (GR0 + grField m) := memGet (memory m) (reg m SP)]>
                      (state m)))))).
Proof.
  intros Hst Hmem Hop Hgr Hsp.
  pose proof (nibble_range (Z.shiftr (instWord m) 4)) as Hg. fold (grField m) in Hg.
  rewrite (stepExec_wf addressMax m "POP" OP3 Hst Hmem) by (rewrite Hop; reflexivity).
  rewrite execute_POP.
  rewrite regs_set_wf by (assumption || lia). rewrite bind_Ok.
  replace (STACK_TOP <? add64 (reg m SP) 1) with false by (symmetry; apply Z.ltb_ge; lia).
  rewrite bind_Ok, commit_Fall by (cbn [state with_state]; apply wfState_insert; exact Hst).
  reflexivity.
Qed.

(** C5.  Stack discipline.  (1) In a state whose SP lies strictly between
    [addressMax + 1] and STACK_TOP, a PUSH returns without error, with SP
    one lower and the effective address stored there; when the instruction
    that comes next is a POP r, that POP returns without error as well, SP
    is back at its prior value and r holds the effective address the PUSH
    stored.  (2) A PUSH returns StackOverflow exactly when the decremented
    SP is at most [addressMax].  (3) A POP returns StackUnderflow exactly
    when the incremented SP exceeds STACK_TOP. *)
Theorem C5_push_pop_stack_discipline :
  (forall (addressMax : Z) (m : Machine),
      wfState (state m) -> wfMemory (memory m) ->
      0 <= addressMax -> STACK_TOP <= Z.of_nat (length (memory m)) ->
      opcode m = 0x70 ->
      addressMax + 1 < reg m SP < STACK_TOP ->
      exists m1,
        stepExec addressMax m = Ok (false, None, m1)
        /\ reg m1 SP = reg m SP - 1
        /\ memGet (memory m1) (reg m1 SP) = eadrOf m
        /\ (opcode m1 = 0x71 -> grField m1 <= 7 ->
            exists m2,
              stepExec addressMax m1 = Ok (false, None, m2)
              /\ reg m2 SP = reg m SP
              /\ reg m2 (GR0 + grField m1) = eadrOf m))
  /\ (forall (addressMax : Z) (m : Machine),
        wfState (state m) -> wfMemory (memory m) -> opcode m = 0x70 ->
        ((exists pc sp m', stepExec addressMax m = Ok (false, Some (StackOverflow pc sp), m'))
         <-> sub64 (reg m SP) 1 <= addressMax))
  /\ (forall (addressMax : Z) (m : Machine),
        wfState (state m) -> wfMemory (memory m) -> opcode m = 0x71 -> grField m <= 7 ->
        ((exists pc sp m', stepExec addressMax m = Ok (false, Some (StackUnderflow pc sp), m'))
         <-> STACK_TOP < add64 (reg m SP) 1)).
Proof.
  split; [|split].
  - intros addressMax m Hst Hmem HaM Hlen Hop Hsp.
    assert (Hs : sub64 (reg m SP) 1 = reg m SP - 1)
      by (apply wrap64_small; unfold STACK_TOP in Hsp; lia).
    pose proof (PUSH_step addressMax m Hst Hmem Hop ltac:(rewrite Hs; lia)) as H1.
    rewrite Hs in H1.
    set (m1 := with_state _ _) in H1.
    assert (Hst1 : wfState (state m1))
      by (subst m1; cbn [state with_state]; repeat apply wfState_insert; exact Hst).
    assert (Hmem1 : wfMemory (memory m1))
      by (subst m1; cbn [memory with_state with_memory]; apply wfMemory_memPut; exact Hmem).
    assert (Hsp1 : reg m1 SP = reg m SP - 1) by (subst m1; reg_simpl Hst).
    assert (Hget : memGet (memory m1) (reg m SP - 1) = eadrOf m).
    { subst m1. cbn [memory with_state with_memory].
      rewrite memGet_memPut_eq by (unfold STACK_TOP in *; lia). apply eadrOf_masked. }
    exists m1. split; [exact H1|]. split; [exact Hsp1|].
    split; [rewrite Hsp1; exact Hget|].
    intros Hop1 Hgr1.
    pose proof (nibble_range (Z.shiftr (instWord m1) 4)) as Hg. fold (grField m1) in Hg.
    assert (Ha : add64 (reg m1 SP) 1 = reg m SP)
      by (rewrite Hsp1; unfold add64; rewrite wrap64_small; unfold STACK_TOP in Hsp; lia).
    pose proof (POP_step addressMax m1 Hst1 Hmem1 Hop1 Hgr1 ltac:(rewrite Ha; lia)) as H2.
    rewrite Ha, Hsp1, Hget in H2.
    eexists. split; [exact H2|].
    split; reg_simpl Hst1.
  - intros addressMax m Hst Hmem Hop.
    rewrite (stepExec_wf addressMax m "PUSH" OP2 Hst Hmem) by (rewrite Hop; reflexivity).
    rewrite execute_PUSH.
    destruct (sub64 (reg m SP) 1 <=? addressMax) eqn:E.
    + rewrite bind_Ok. cbn [commit]. apply Z.leb_le in E.
      split; [intros _; exact E | intros _; eauto].
    + rewrite bind_Ok, commit_Fall by exact Hst. apply Z.leb_gt in E.
      split; [intros (pc & sp & m' & H); discriminate | lia].
  - intros addressMax m Hst Hmem Hop Hgr.
    pose proof (nibble_range (Z.shiftr (instWord m) 4)) as Hg. fold (grField m) in Hg.
    rewrite (stepExec_wf addressMax m "POP" OP3 Hst Hmem) by (rewrite Hop; reflexivity).
    rewrite execute_POP.
    rewrite regs_set_wf by (assumption || lia). rewrite bind_Ok.
    destruct (STACK_TOP <? add64 (reg m SP) 1) eqn:E.
    + rewrite bind_Ok. cbn [commit]. apply Z.ltb_lt in E.
      split; [intros _; exact E | intros _; eauto].
    + rewrite bind_Ok, commit_Fall by (cbn [state with_state]; apply wfState_insert; exact Hst).
      apply Z.ltb_ge in E.
      split; [intros (pc & sp & m' & H); discriminate | lia].
Qed.

(** ** Signed addition and subtraction *)

Lemma flags_overflow r lo hi v :
  overflowSet (Z.lor (Z.lor (getFlag r) (if hi <? v then FR_OVER else 0))
                     (if v <? lo then FR_OVER else 0))
  <-> ~ (lo <= v <= hi).
Proof.
  unfold overflowSet, getFlag.
  destruct (hi <? v) eqn:E1; destruct (v <? lo) eqn:E2;
    [apply Z.ltb_lt in E1 | apply Z.ltb_lt in E1 | apply Z.ltb_ge in E1 | apply Z.ltb_ge in E1];
    [apply Z.ltb_lt in E2 | apply Z.ltb_ge in E2 | apply Z.ltb_lt in E2 | apply Z.ltb_ge in E2];
    destruct (negb (Z.land r 32768 =? 0)); try destruct (r =? 0);
    cbn; split; intros H; try lia; try discriminate; try reflexivity.
Qed.

Lemma signed_range v : word16 v -> inSigned (signed v).
Proof.
  unfold word16, inSigned, signed, MIN_SIGNED, MAX_SIGNED. intros H.
  destruct ((32768 <=? v) && (v <? 65536)) eqn:E.
  - apply andb_prop in E as [E1 E2]. apply Z.leb_le in E1. lia.
  - apply andb_false_iff in E as [E|E]; [apply Z.leb_gt in E | apply Z.ltb_ge in E]; lia.
Qed.

Lemma signed_idem v : inSigned v -> signed v = v.
Proof.
  unfold inSigned, signed, MIN_SIGNED, MAX_SIGNED. intros H.
  destruct ((32768 <=? v) && (v <? 65536)) eqn:E; [|reflexivity].
  apply andb_prop in E as [E1 E2]. apply Z.leb_le in E1. lia.
Qed.

Lemma execute_ADDA aM rr m gr xr eadr pc fr sp :
  execute aM "ADDA" rr m gr xr eadr pc fr sp = execArithA add64 rr m gr xr eadr pc sp.
Proof. reflexivity. Qed.

Lemma execute_SUBA aM rr m gr xr eadr pc fr sp :
  execute aM "SUBA" rr m gr xr eadr pc fr sp = execArithA sub64 rr m gr xr eadr pc sp.
Proof. reflexivity. Qed.

(** The register form of a signed operation [op] on words in range. *)
Lemma execArithA_register (op : Z -> Z -> Z) m gr xr eadr pc sp :
  wfState (state m) -> 0 <= gr <= 7 -> 0 <= xr <= 7 ->
  word16 (reg m (GR0 + gr)) -> word16 (reg m (GR0 + xr)) ->
  let res := op (signed (reg m (GR0 + gr))) (signed (reg m (GR0 + xr))) in
  exists m' fr,
    execArithA op true m gr xr eadr pc sp = Ok (Fall (add64 pc 1) fr sp false m')
    /\ wfState (state m')
    /\ reg m' (GR0 + gr) = Z.land res 0xffff
    /\ (overflowSet fr <-> ~ inSigned res)
    /\ memory m' = memory m.
Proof.
  intros Hst Hgr Hxr Wg Wx res.
  unfold execArithA. cbn [negb].
  rewrite regs_upd_wf by (assumption || lia). rewrite bind_Ok.
  set (m1 := with_state m _).
  assert (Hst1 : wfState (state m1)) by (subst m1; apply wfState_insert; exact Hst).
  rewrite regs_upd_wf by (assumption || lia). rewrite bind_Ok.
  set (m2 := with_state m1 _).
  assert (Hst2 : wfState (state m2)) by (subst m2; apply wfState_insert; exact Hst1).
  assert (Hx2 : reg m2 (GR0 + xr) = signed (reg m (GR0 + xr))).
  { subst m2. rewrite reg_insert_eq by (assumption || (unfold GR0; lia)).
    subst m1. destruct (Z.eq_dec gr xr) as [->|ne].
    - rewrite reg_insert_eq by (assumption || (unfold GR0; lia)).
      apply signed_idem, signed_range, Wx.
    - rewrite reg_insert_ne by (unfold GR0; lia). reflexivity. }
  assert (Hg2 : reg m2 (GR0 + gr) = signed (reg m (GR0 + gr))).
  { subst m2. destruct (Z.eq_dec gr xr) as [->|ne].
    - rewrite reg_insert_eq by (assumption || (unfold GR0; lia)).
      subst m1. rewrite reg_insert_eq by (assumption || (unfold GR0; lia)).
      apply signed_idem, signed_range, Wx.
    - rewrite reg_insert_ne by (unfold GR0; lia).
      subst m1. rewrite reg_insert_eq by (assumption || (unfold GR0; lia)). reflexivity. }
  rewrite regs_get_wf by (assumption || lia). rewrite bind_Ok, Hx2.
  rewrite regs_upd_wf by (assumption || lia). rewrite bind_Ok, Hg2. fold res.
  set (m3 := with_state m2 _).
  assert (Hst3 : wfState (state m3)) by (subst m3; apply wfState_insert; exact Hst2).
  assert (Hg3 : reg m3 (GR0 + gr) = res)
    by (subst m3; apply reg_insert_eq; [assumption | unfold GR0; lia]).
  unfold rangeFlags. rewrite regs_get_wf by (assumption || lia). rewrite !bind_Ok, Hg3.
  rewrite regs_upd_wf by (assumption || lia). rewrite bind_Ok, Hg3.
  set (m4 := with_state m3 _).
  assert (Hst4 : wfState (state m4)) by (subst m4; apply wfState_insert; exact Hst3).
  rewrite regs_upd_wf by (assumption || lia). rewrite bind_Ok.
  set (m5 := with_state m4 _).
  assert (Hst5 : wfState (state m5)) by (subst m5; apply wfState_insert; exact Hst4).
  assert (Hg5 : reg m5 (GR0 + gr) = Z.land res 0xffff).
  { subst m5. destruct (Z.eq_dec gr xr) as [->|ne].
    - rewrite reg_insert_eq by (assumption || (unfold GR0; lia)).
      subst m4. rewrite reg_insert_eq by (assumption || (unfold GR0; lia)).
      unfold mask16. rewrite <- Z.land_assoc. reflexivity.
    - rewrite reg_insert_ne by (unfold GR0; lia).
      subst m4. rewrite reg_insert_eq by (assumption || (unfold GR0; lia)). reflexivity. }
  unfold flagsOf. rewrite regs_get_wf by (assumption || lia). rewrite !bind_Ok.
  cbn [fst snd].
  eexists. eexists. split; [reflexivity|].
  split; [exact Hst5|]. split; [exact Hg5|]. split; [|reflexivity].
  apply flags_overflow.
Qed.

(** The address form: the memory word enters as it is read, unsigned. *)
Lemma execArithA_address (op : Z -> Z -> Z) m gr xr eadr pc sp :
  wfState (state m) -> 0 <= gr <= 7 ->
  let res := op (signed (reg m (GR0 + gr))) (memGet (memory m) eadr) in
  exists m' fr,
    execArithA op false m gr xr eadr pc sp = Ok (Fall (add64 pc 2) fr sp false m')
    /\ wfState (state m')
    /\ reg m' (GR0 + gr) = Z.land res 0xffff
    /\ (overflowSet fr <-> ~ inSigned res)
    /\ memory m' = memory m.
Proof.
  intros Hst Hgr res.
  unfold execArithA. cbn [negb].
  rewrite regs_upd_wf by (assumption || lia). rewrite bind_Ok.
  set (m1 := with_state m _).
  assert (Hst1 : wfState (state m1)) by (subst m1; apply wfState_insert; exact Hst).
  assert (Hg1 : reg m1 (GR0 + gr) = signed (reg m (GR0 + gr)))
    by (subst m1; apply reg_insert_eq; [assumption | unfold GR0; lia]).
  rewrite regs_upd_wf by (assumption || lia). rewrite bind_Ok, Hg1.
  change (memory m1) with (memory m). fold res.
  set (m2 := with_state m1 _).
  assert (Hst2 : wfState (state m2)) by (subst m2; apply wfState_insert; exact Hst1).
  assert (Hg2 : reg m2 (GR0 + gr) = res)
    by (subst m2; apply reg_insert_eq; [assumption | unfold GR0; lia]).
  unfold rangeFlags. rewrite regs_get_wf by (assumption || lia). rewrite !bind_Ok, Hg2.
  rewrite regs_upd_wf by (assumption || lia). rewrite bind_Ok, Hg2.
  set (m3 := with_state m2 _).
  assert (Hst3 : wfState (state m3)) by (subst m3; apply wfState_insert; exact Hst2).
  assert (Hg3 : reg m3 (GR0 + gr) = Z.land res 0xffff)
    by (subst m3; apply reg_insert_eq; [assumption | unfold GR0; lia]).
  unfold flagsOf. rewrite regs_get_wf by (assumption || lia). rewrite !bind_Ok.
  cbn [fst snd].
  eexists. eexists. split; [reflexivity|].
  split; [exact Hst3|]. split; [exact Hg3|]. split; [|reflexivity].
  apply flags_overflow.
Qed.

Lemma reg_commit m pc fr sp i :
  wfState (state m) -> 0 <= i <= 7 ->
  reg (with_state m (<[Z.to_nat SP := sp]> (<[Z.to_nat FR := fr]>
        (<[Z.to_nat PC := pc]> (state m))))) (GR0 + i) = reg m (GR0 + i).
Proof.
  intros Hst Hi. unfold reg. cbn [state with_state].
  rewrite !list_lookup_insert_ne by (unfold PC, FR, SP, GR0; lia). reflexivity.
Qed.

Lemma FR_commit m pc fr sp :
  wfState (state m) ->
  reg (with_state m (<[Z.to_nat SP := sp]> (<[Z.to_nat FR := fr]>
        (<[Z.to_nat PC := pc]> (state m))))) FR = fr.
Proof.
  intros Hst. unfold reg. cbn [state with_state]. unfold wfState in Hst.
  rewrite list_lookup_insert_ne by (unfold FR, SP; lia).
  rewrite list_lookup_insert_eq by (rewrite length_insert, Hst; unfold FR; lia).
  reflexivity.
Qed.

(** ADDA and SUBA between registers do what the instruction set asks:
    both operands are sign-extended, the register gets the low 16 bits of
    the result, OVERFLOW is set exactly when the signed result is out of
    range. *)
Lemma ADDA_SUBA_register_form addressMax m :
  wfState (state m) -> wfMemory (memory m) ->
  opcode m = 0x24 \/ opcode m = 0x25 ->
  grField m <= 7 -> xrField m <= 7 ->
  word16 (reg m (GR0 + grField m)) -> word16 (reg m (GR0 + xrField m)) ->
  let a := signed (reg m (GR0 + grField m)) in
  let b := signed (reg m (GR0 + xrField m)) in
  let res := if opcode m =? 0x24 then a + b else a - b in
  exists m',
    stepExec addressMax m = Ok (false, None, m')
    /\ reg m' (GR0 + grField m) = Z.land res 0xffff
    /\ (overflowSet (reg m' FR) <-> ~ inSigned res).
Proof.
  intros Hst Hmem Hop Hgr Hxr Wg Wx a b res.
  pose proof (nibble_range (Z.shiftr (instWord m) 4)) as Hg. fold (grField m) in Hg.
  pose proof (nibble_range (instWord m)) as Hx. fold (xrField m) in Hx.
  pose proof (signed_range _ Wg) as Sa. pose proof (signed_range _ Wx) as Sb.
  fold a in Sa. fold b in Sb. unfold inSigned, MIN_SIGNED, MAX_SIGNED in Sa, Sb.
  assert (Hrr : regregForm OP5 (grField m) (xrField m) = true).
  { unfold regregForm. apply andb_true_intro. split; [apply Z.ltb_lt; lia|].
    apply orb_true_intro. left. apply Z.ltb_lt. lia. }
  destruct Hop as [Hop|Hop]; subst res; rewrite Hop; cbn [Z.eqb Pos.eqb].
  - rewrite (stepExec_wf addressMax m "ADDA" OP5 Hst Hmem) by (rewrite Hop; reflexivity).
    rewrite execute_ADDA, Hrr.
    destruct (execArithA_register add64 m (grField m) (xrField m) (eadrOf m) (reg m PC)
                (reg m SP) Hst ltac:(lia) ltac:(lia) Wg Wx)
      as (m' & fr & E & Hst' & Hres & Hov & _).
    fold a b in Hres, Hov. unfold add64 in Hres, Hov.
    rewrite wrap64_small in Hres, Hov by lia.
    rewrite E, bind_Ok, commit_Fall by exact Hst'.
    eexists. split; [reflexivity|].
    rewrite reg_commit by (assumption || lia). rewrite FR_commit by assumption.
    split; [exact Hres | exact Hov].
  - rewrite (stepExec_wf addressMax m "SUBA" OP5 Hst Hmem) by (rewrite Hop; reflexivity).
    rewrite execute_SUBA, Hrr.
    destruct (execArithA_register sub64 m (grField m) (xrField m) (eadrOf m) (reg m PC)
                (reg m SP) Hst ltac:(lia) ltac:(lia) Wg Wx)
      as (m' & fr & E & Hst' & Hres & Hov & _).
    fold a b in Hres, Hov. unfold sub64 in Hres, Hov.
    rewrite wrap64_small in Hres, Hov by lia.
    rewrite E, bind_Ok, commit_Fall by exact Hst'.
    eexists. split; [reflexivity|].
    rewrite reg_commit by (assumption || lia). rewrite FR_commit by assumption.
    split; [exact Hres | exact Hov].
Qed.

(** ADDA and SUBA with a memory operand: the register gets the low 16
    bits of the result, but OVERFLOW follows the sum (difference) of the
    sign-extended register and the unsigned memory word. *)
Lemma ADDA_SUBA_address_form addressMax m :
  wfState (state m) -> wfMemory (memory m) ->
  opcode m = 0x20 \/ opcode m = 0x21 ->
  grField m <= 7 ->
  word16 (reg m (GR0 + grField m)) ->
  let a := signed (reg m (GR0 + grField m)) in
  let w := memGet (memory m) (eadrOf m) in
  let res := if opcode m =? 0x20 then a + w else a - w in
  exists m',
    stepExec addressMax m = Ok (false, None, m')
    /\ reg m' (GR0 + grField m) = Z.land res 0xffff
    /\ (overflowSet (reg m' FR) <-> ~ inSigned res).
Proof.
  intros Hst Hmem Hop Hgr Wg a w res.
  pose proof (nibble_range (Z.shiftr (instWord m) 4)) as Hg. fold (grField m) in Hg.
  pose proof (signed_range _ Wg) as Sa. fold a in Sa.
  unfold inSigned, MIN_SIGNED, MAX_SIGNED in Sa.
  pose proof (memGet_range (memory m) (eadrOf m) Hmem) as Ww. fold w in Ww.
  destruct Hop as [Hop|Hop]; subst res; rewrite Hop; cbn [Z.eqb Pos.eqb].
  - rewrite (stepExec_wf addressMax m "ADDA" OP1 Hst Hmem) by (rewrite Hop; reflexivity).
    rewrite execute_ADDA. cbn [regregForm].
    destruct (execArithA_address add64 m (grField m) (xrField m) (eadrOf m) (reg m PC)
                (reg m SP) Hst ltac:(lia))
      as (m' & fr & E & Hst' & Hres & Hov & _).
    fold a w in Hres, Hov. unfold add64 in Hres, Hov.
    rewrite wrap64_small in Hres, Hov by lia.
    rewrite E, bind_Ok, commit_Fall by exact Hst'.
    eexists. split; [reflexivity|].
    rewrite reg_commit by (assumption || lia). rewrite FR_commit by assumption.
    split; [exact Hres | exact Hov].
  - rewrite (stepExec_wf addressMax m "SUBA" OP1 Hst Hmem) by (rewrite Hop; reflexivity).
    rewrite execute_SUBA. cbn [regregForm].
    destruct (execArithA_address sub64 m (grField m) (xrField m) (eadrOf m) (reg m PC)
                (reg m SP) Hst ltac:(lia))
      as (m' & fr & E & Hst' & Hres & Hov & _).
    fold a w in Hres, Hov. unfold sub64 in Hres, Hov.
    rewrite wrap64_small in Hres, Hov by lia.
    rewrite E, bind_Ok, commit_Fall by exact Hst'.
    eexists. split; [reflexivity|].
    rewrite reg_commit by (assumption || lia). rewrite FR_commit by assumption.
    split; [exact Hres | exact Hov].
Qed.

(** ** Evaluation at given machines *)

(** C1.  ADDA in the register-address form adds the memory word as an
    unsigned number: with GR0 = 1 and the word 0xFFFF (-1 as a signed word)
    the step ends with GR0 = 0 and FR = OVERFLOW|ZERO, although the sum of
    the sign-extended operands, 0, lies within [-32768, 32767].  SUBA does
    the same: 0 - 0xFFFF sets OVERFLOW, the signed difference being 1. *)
Theorem C1_ADDA_SUBA_memory_operand_not_sign_extended :
  stepState 3 (machineOf (freshMemory [0x2000; 2; 0xFFFF])
                 [0; 0; 1; 0; 0; 0; 0; 0; 0; 0; STACK_TOP])
  = Ok (false, None, [2; Z.lor FR_OVER FR_ZERO; 0; 0; 0; 0; 0; 0; 0; 0; STACK_TOP])
  /\ MIN_SIGNED <= signed 1 + signed 0xFFFF <= MAX_SIGNED
  /\ stepState 3 (machineOf (freshMemory [0x2100; 2; 0xFFFF])
                    [0; 0; 0; 0; 0; 0; 0; 0; 0; 0; STACK_TOP])
     = Ok (false, None, [2; FR_OVER; 1; 0; 0; 0; 0; 0; 0; 0; STACK_TOP])
  /\ MIN_SIGNED <= signed 0 - signed 0xFFFF <= MAX_SIGNED.
Proof. repeat split; try (vm_compute; reflexivity); vm_compute; discriminate. Qed.

(** C4.  SLA GR0,1 with GR0 = 0x4000: the sign bit was 0 and is 1 after
    the shift (GR0 = 0x8000, FR = MINUS|OVERFLOW); and SLA GR0,0 with
    GR0 = 0x8000 shifts nothing out yet sets OVERFLOW. *)
Theorem C4_SLA_sign_bit_not_preserved :
  stepState 2 (machineOf (freshMemory [0x5000; 1])
                 [0; 0; 0x4000; 0; 0; 0; 0; 0; 0; 0; STACK_TOP])
  = Ok (false, None, [2; Z.lor FR_MINUS FR_OVER; 0x8000; 0; 0; 0; 0; 0; 0; 0; STACK_TOP])
  /\ Z.testbit 0x4000 15 = false /\ Z.testbit 0x8000 15 = true
  /\ stepState 2 (machineOf (freshMemory [0x5000; 0])
                    [0; 0; 0x8000; 0; 0; 0; 0; 0; 0; 0; STACK_TOP])
     = Ok (false, None, [2; Z.lor FR_MINUS FR_OVER; 0x8000; 0; 0; 0; 0; 0; 0; 0; STACK_TOP]).
Proof. repeat split; vm_compute; reflexivity. Qed.

(** C9.  A call of [stepExec] can abort: SRA and SRL with an effective
    shift amount of 0 shift by [eadr - 1 = -1] and panic, and so does a
    shift amount of 4 ([2 - (eadr - 1) = -1]); an instruction word whose
    register field is above 7 indexes [regs] out of range. *)
Theorem C9_stepExec_panics :
  stepExec 2 (machineOf (freshMemory [0x5100; 0]) (initialState 0))
  = Panic "negative shift amount"
  /\ stepExec 2 (machineOf (freshMemory [0x5300; 0]) (initialState 0))
     = Panic "negative shift amount"
  /\ stepExec 2 (machineOf (freshMemory [0x5100; 4]) (initialState 0))
     = Panic "negative shift amount"
  /\ stepExec 2 (machineOf (freshMemory [0x1080; 0]) (initialState 0))
     = Panic "index out of range".
Proof. repeat split; vm_compute; reflexivity. Qed.

(** C10.  DIVA with a zero divisor stores the sign-extended dividend:
    from GR0 = 0xFFFF and GR1 = 0, DIVA GR0,GR1 returns without error and
    leaves GR0 = -1 in the state, outside 0..65535; the register-address
    form does the same. *)
Theorem C10_DIVA_zero_leaves_negative_register :
  stepState 1 (machineOf (freshMemory [0x2D01])
                 [0; 0; 0xFFFF; 0; 0; 0; 0; 0; 0; 0; STACK_TOP])
  = Ok (false, None, [1; Z.lor FR_OVER FR_ZERO; -1; 0; 0; 0; 0; 0; 0; 0; STACK_TOP])
  /\ stepState 3 (machineOf (freshMemory [0x2900; 2; 0])
                    [0; 0; 0xFFFF; 0; 0; 0; 0; 0; 0; 0; STACK_TOP])
     = Ok (false, None, [2; Z.lor FR_OVER FR_ZERO; -1; 0; 0; 0; 0; 0; 0; 0; STACK_TOP]).
Proof. split; vm_compute; reflexivity. Qed.

(** C3.  Pass 1 rejects the S1 program: the literal queued for [=10] is
    the text [=10_0], which END takes for neither a string nor a number, so
    the assembly stops with an error at line 6 and a launch of S1 fails;
    nothing is run. *)
Theorem C3_S1_does_not_assemble :
  forall (program : string),
    pass1 S1_source (set_file newAssemblerState program)
    = Failed "Line 6: Invalid literal =10_0"
    /\ (forall fuel, assemble fuel program S1_source = Failed "Line 6: Invalid literal =10_0")
    /\ (forall fuel d, handleLaunch fuel d program S1_source = Done None).
Proof.
  intros program.
  assert (H : pass1 S1_source (set_file newAssemblerState program)
              = Failed "Line 6: Invalid literal =10_0") by (vm_compute; reflexivity).
  split; [exact H|].
  assert (A : forall fuel, assemble fuel program S1_source
                           = Failed "Line 6: Invalid literal =10_0").
  { intros fuel. unfold assemble. rewrite H. reflexivity. }
  split; [exact A|].
  intros fuel d. unfold handleLaunch. rewrite A. reflexivity.
Qed.

(** C6.  Pass 1 rejects the S4 program at its END line: the queued
    literal is the text [=#00FF_0], which END does not accept; no image is
    produced. *)
Theorem C6_S4_does_not_assemble :
  forall (program : string),
    pass1 S4_source (set_file newAssemblerState program)
    = Failed "Line 4: Invalid literal =#00FF_0"
    /\ (forall fuel, assemble fuel program S4_source
                     = Failed "Line 4: Invalid literal =#00FF_0").
Proof.
  intros program.
  assert (H : pass1 S4_source (set_file newAssemblerState program)
              = Failed "Line 4: Invalid literal =#00FF_0") by (vm_compute; reflexivity).
  split; [exact H|].
  intros fuel. unfold assemble. rewrite H. reflexivity.
Qed.

(** The emulator on the image S1 stands for: four steps end in
    ProgramFinished(RET) with GR0 = 30, GR1 = 20, FR = PLUS, and PC still at
    the RET word. *)
Lemma S1_image_runs :
  runState 4 8 (machineOf (freshMemory S1_image) (initialState 0))
  = Ok (false, Some ProgramFinishedRET, [5; FR_PLUS; 30; 20; 0; 0; 0; 0; 0; 0; STACK_TOP]).
Proof. vm_compute. reflexivity. Qed.

(** The same program with its literals written as DC constants assembles
    to that image. *)
Lemma S1_constants_assemble :
  forall (program : string),
    (fun r => match r with
              | Done (Some a) => Some (comet2bin a, asmStartLabel a, asmAddressMax a)
              | _ => None
              end) (assemble 1 program S1_constants_source)
    = Some (S1_image, "MAIN:MAIN", 8).
Proof. intros program. vm_compute. reflexivity. Qed.

(** ** Breakpoints *)

(** Whatever the iteration order, [findAddressForLine] answers an
    address of the map whose entry has the requested line, or -1 when no
    entry has it. *)
Lemma firstAddressWithLine_sound (mm : gmap Z MemoryEntry) (order : list Z) (line : Z) :
  iterationOrder mm order ->
  (exists e, mm !! firstAddressWithLine mm order line = Some e /\ memLine e = line)
  \/ (firstAddressWithLine mm order line = -1
      /\ forall addr e, mm !! addr = Some e -> memLine e <> line).
Proof.
  unfold iterationOrder. intros Hperm.
  assert (Hall : forall addr, is_Some (mm !! addr) -> addr ∈ order).
  { intros addr H. rewrite Hperm. apply elem_of_elements, elem_of_dom. exact H. }
  clear Hperm.
  assert (G : forall l,
    (exists e, mm !! firstAddressWithLine mm l line = Some e /\ memLine e = line)
    \/ (firstAddressWithLine mm l line = -1
        /\ forall addr e, addr ∈ l -> mm !! addr = Some e -> memLine e <> line)).
  { induction l as [|a l IH]; cbn [firstAddressWithLine].
    - right. split; [reflexivity|]. intros addr e H. inversion H.
    - destruct (mm !! a) as [e|] eqn:E.
      + destruct (memLine e =? line) eqn:El.
        * left. exists e. split; [exact E|]. apply Z.eqb_eq. exact El.
        * destruct IH as [IH | [IH1 IH2]]; [left; exact IH|].
          right. split; [exact IH1|]. intros addr e' Hin He'.
          apply elem_of_cons in Hin as [-> | Hin]; [|eapply IH2; eassumption].
          rewrite E in He'. injection He' as <-. apply Z.eqb_neq. exact El.
      + destruct IH as [IH | [IH1 IH2]]; [left; exact IH|].
        right. split; [exact IH1|]. intros addr e' Hin He'.
        apply elem_of_cons in Hin as [-> | Hin]; [|eapply IH2; eassumption].
        rewrite E in He'. discriminate. }
  destruct (G order) as [H | [H1 H2]]; [left; exact H|].
  right. split; [exact H1|]. intros addr e He. apply (H2 addr e); [|exact He].
  apply Hall. rewrite He. eauto.
Qed.

(** The breakpoints a request leaves do not depend on those set before. *)
Lemma setBreakpoints_forgets_prior mem st b1 b2 a orders lines :
  handleSetBreakpoints (mkDAPServer mem st b1 a) orders lines
  = handleSetBreakpoints (mkDAPServer mem st b2 a) orders lines.
Proof.
  unfold handleSetBreakpoints. cbn [dapMemory dapState dapAsmState].
  assert (E : forall k bps,
    setBreakpointLines (mkDAPServer mem st b1 a) k orders lines bps
    = setBreakpointLines (mkDAPServer mem st b2 a) k orders lines bps).
  { induction lines as [|l rest IH]; intros k bps; cbn [setBreakpointLines]; [reflexivity|].
    unfold findAddressForLine. cbn [dapAsmState]. rewrite !IH. reflexivity. }
  rewrite E. reflexivity.
Qed.

(** C7.  The address a breakpoint gets depends on the order in which the
    memory map is visited.  Line 2 of the program holds the two words of
    [LAD GR1,5], at addresses 0 and 1.  Both [0; 1; 2] and [1; 0; 2] are
    iteration orders of the map; with the first the breakpoint lands on
    address 0, with the second on address 1, which is not the smallest
    address of line 2, and the request still answers verified.  The prior
    breakpoint (address 7) is gone in either case. *)
Theorem C7_breakpoint_address_depends_on_iteration_order :
  iterationOrder (asmMemory S7_asmState) [0; 1; 2]
  /\ iterationOrder (asmMemory S7_asmState) [1; 0; 2]
  /\ findAddressForLine S7_server [0; 1; 2] 2 = 0
  /\ findAddressForLine S7_server [1; 0; 2] 2 = 1
  /\ (let '(d, resp) := handleSetBreakpoints S7_server (fun _ => [0; 1; 2]) [2] in
      (breakpoints d, resp)) = ({[ 0 := true ]}, [(true, 2)])
  /\ (let '(d, resp) := handleSetBreakpoints S7_server (fun _ => [1; 0; 2]) [2] in
      (breakpoints d, resp)) = ({[ 1 := true ]}, [(true, 2)]).
Proof.
  assert (E : elements (dom (asmMemory S7_asmState)) = [2; 1; 0])
    by (vm_compute; reflexivity).
  unfold iterationOrder. rewrite E.
  split; [|split; [|repeat split; vm_compute; reflexivity]].
  - apply (Permutation_rev [0; 1; 2]).
  - apply (perm_trans (perm_swap 0 1 [2])). apply (Permutation_rev [0; 1; 2]).
Qed.

(** * Properties of the assembler *)

(** ** The scanner makes progress *)

Lemma scanWhile_le p s : (String.length (snd (scanWhile p s)) <= String.length s)%nat.
Proof.
  induction s as [|c s IH]; cbn [scanWhile]; [reflexivity|].
  destruct (p c); [|reflexivity].
  destruct (scanWhile p s) as [tok rest]. cbn [snd String.length] in *. lia.
Qed.

Lemma scanWhile_lt p c s :
  p c = true -> (String.length (snd (scanWhile p (String c s))) < String.length (String c s))%nat.
Proof.
  intros H. cbn [scanWhile]. rewrite H.
  pose proof (scanWhile_le p s) as L.
  destruct (scanWhile p s) as [tok rest]. cbn [snd String.length] in *. lia.
Qed.

Lemma scanStringBody_le s : (String.length (snd (scanStringBody s)) <= String.length s)%nat.
Proof.
  assert (G : forall n s, (String.length s <= n)%nat ->
              (String.length (snd (scanStringBody s)) <= String.length s)%nat).
  { induction n as [|n IH]; intros [|c t] Hn; cbn [scanStringBody]; try reflexivity.
    - cbn in Hn. lia.
    - destruct (isNUL c); [reflexivity|].
      destruct (Ascii.eqb c "'").
      + destruct t as [|c' t']; [cbn; lia|].
        destruct (Ascii.eqb c' "'"); [|cbn; lia].
        specialize (IH t' ltac:(cbn in Hn; lia)).
        destruct (scanStringBody t') as [v r]. cbn [snd String.length] in *. lia.
      + specialize (IH t ltac:(cbn in Hn; lia)).
        destruct (scanStringBody t) as [v r]. cbn [snd String.length] in *. lia. }
  apply (G (String.length s)). reflexivity.
Qed.

Lemma peek_cons c s : peek (String c s) = c.
Proof. reflexivity. Qed.

Lemma peek_nil : peek EmptyString = zero.
Proof. reflexivity. Qed.

(** A token that does not end the line consumes at least one byte. *)
Lemma NextToken_progress input tok rest :
  NextToken input = (tok, rest) -> endsLine (Type_ tok) = false ->
  (String.length rest < String.length input)%nat.
Proof.
  destruct input as [|c s].
  { cbv. intros [= <- <-]. discriminate. }
  unfold NextToken. rewrite peek_cons.
  destruct (isWhitespace c) eqn:Ews.
  { unfold scanWhitespace. pose proof (scanWhile_lt isWhitespace c s Ews) as L.
    destruct (scanWhile isWhitespace (String c s)) as [v r]. intros [= <- <-] _. exact L. }
  destruct (isLF c || isCR c).
  { unfold scanNewline. destruct s as [|c' s']; [intros [= <- <-]; discriminate|].
    destruct (isCR c && isLF c'); intros [= <- <-]; discriminate. }
  destruct (isNUL c); [intros [= <- <-]; discriminate|].
  destruct (Ascii.eqb c ";").
  { unfold scanComment. destruct (scanWhile _ s). intros [= <- <-]. discriminate. }
  destruct (Ascii.eqb c ","); [intros [= <- <-] _; cbn; lia|].
  destruct (Ascii.eqb c "="); [intros [= <- <-] _; cbn; lia|].
  destruct (Ascii.eqb c "'").
  { unfold scanString. pose proof (scanStringBody_le s) as L.
    destruct (scanStringBody s) as [v r]. intros [= <- <-] _. cbn [snd String.length] in *. lia. }
  destruct (Ascii.eqb c "#").
  { unfold scanHexNumber. pose proof (scanWhile_le isHexDigit s) as L.
    destruct (scanWhile isHexDigit s) as [v r]. intros [= <- <-] _.
    cbn [snd String.length] in *. lia. }
  destruct (isDigit c || (Ascii.eqb c "+" || Ascii.eqb c "-") && isDigit (peekN (String c s) 1))
    eqn:Enum.
  { unfold scanNumber. destruct (Ascii.eqb c "+" || Ascii.eqb c "-") eqn:Esign.
    - pose proof (scanWhile_le isDigit s) as L.
      destruct (scanWhile isDigit s) as [v r]. intros [= <- <-] _.
      cbn [snd String.length] in *. lia.
    - cbn [andb orb] in Enum. rewrite orb_false_r in Enum.
      pose proof (scanWhile_lt isDigit c s Enum) as L.
      destruct (scanWhile isDigit (String c s)) as [v r]. intros [= <- <-] _. exact L. }
  destruct (isLetter c) eqn:Elet; [|intros [= <- <-]; discriminate].
  assert (Hlab : forall tok rest,
    (let '(v, rest) := scanWhile isLabelChar (String c s) in (mkToken TOKEN_LABEL v, rest))
    = (tok, rest) -> (String.length rest < String.length (String c s))%nat).
  { intros tok0 rest0.
    assert (Hc : isLabelChar c = true) by (unfold isLabelChar; rewrite Elet; reflexivity).
    pose proof (scanWhile_lt isLabelChar c s Hc) as L.
    destruct (scanWhile isLabelChar (String c s)) as [v r]. intros [= <- <-]. exact L. }
  unfold scanIdentifier. cbv zeta.
  destruct (Ascii.eqb (peek (String c s)) "G" && Ascii.eqb (peekN (String c s) 1) "R");
    [|intros E _; exact (Hlab _ _ E)].
  destruct (between "0" "7" (peekN (String c s) 2)); [|intros E _; exact (Hlab _ _ E)].
  match goal with |- context [if ?b then _ else _] => destruct b end;
    [intros E _; exact (Hlab _ _ E)|].
  intros [= <- <-] _. destruct s as [|c1 [|c2 s2]]; cbn; lia.
Qed.

(** Fuel above the length of the text changes nothing. *)
Lemma tokenize_fuel n : forall input firstToken lead tokens k,
  (String.length input < n)%nat -> (n <= k)%nat ->
  tokenize k input firstToken lead tokens = tokenize n input firstToken lead tokens.
Proof.
  induction n as [|n IH]; intros input firstToken lead tokens k Hn Hk; [lia|].
  destruct k as [|k]; [lia|]. cbn [tokenize].
  destruct (NextToken input) as [tok rest] eqn:E.
  pose proof (NextToken_progress _ _ _ E) as P.
  destruct (Type_ tok); try reflexivity;
    (apply IH; [specialize (P eq_refl); lia | lia]).
Qed.


Lemma dense_ext a b addr :
  emitted b = emitted a -> asmMemory b = asmMemory a -> symtbl b = symtbl a ->
  dense a addr -> dense b addr.
Proof. unfold dense. intros -> -> ->. trivial. Qed.

Lemma dense_store a addr val addr' :
  addr' = addr + 1 -> dense a addr -> dense (store a addr val) addr'.
Proof.
  intros -> (H0 & He & Hd & Hs). unfold dense, store. cbn.
  split; [lia|]. split; [|split; [|exact Hs]].
  - rewrite He. rewrite seqZ_app by lia. f_equal.
  - rewrite dom_insert_L, list_to_set_app_L, Hd. cbn.
    rewrite (right_id_L ∅ (∪)). apply (comm_L (∪)).
Qed.

Lemma dense_genCode1 a addr val addr' :
  addr' = addr + 1 -> dense a addr -> dense (genCode1 a addr val) addr'.
Proof.
  intros E H. unfold genCode1.
  destruct val as [v|v]; [apply dense_store; assumption|].
  destruct (if HasPrefix v "#" then ParseInt (dropBytes 1 v) 16 else None);
    [apply dense_store; assumption|].
  destruct (ParseInt v 10); apply dense_store; assumption.
Qed.



Lemma dense_emitWords words : forall a addr a' addr',
  emitWords a addr words = (a', addr') -> dense a addr -> dense a' addr'.
Proof.
  induction words as [|w rest IH]; intros a addr a' addr' E H; cbn [emitWords] in E.
  - inversion E; subst. exact H.
  - apply (IH _ _ _ _ E). apply dense_genCode1; [reflexivity|exact H].
Qed.







Ltac dense_frame := apply dense_ext; [reflexivity | reflexivity | reflexivity |].








Lemma dense_stringWords_emit a addr lit words a' addr' :
  stringWords lit = Done words -> emitWords a addr words = (a', addr') ->
  dense a addr -> dense a' addr'.
Proof. intros _. apply dense_emitWords. Qed.
























(** ** The general theorems at given inputs *)

Lemma length_freshMemory bin : Z.of_nat (length (freshMemory bin)) = 0x10000.
Proof.
  unfold freshMemory. rewrite length_take, length_app, length_replicate.
  rewrite Nat.min_l by apply Nat.le_add_l. apply Z2Nat.id. discriminate.
Defined.

Lemma wfMemory_freshMemory bin : wfMemory bin -> wfMemory (freshMemory bin).
Proof.
  intros H. unfold wfMemory, freshMemory. apply Forall_take, Forall_app. split; [exact H|].
  apply Forall_replicate. split; [discriminate | reflexivity].
Defined.

Lemma C2_division_by_zero_witness :
  exists m',
    stepExec 2 divisionMachine = Ok (false, None, m')
    /\ reg m' FR = Z.lor FR_OVER FR_ZERO
    /\ stdout m' = stdout divisionMachine ++ [divDiagnostic divisionMachine]
    /\ reg m' PC = add64 (reg divisionMachine PC) (instSize divisionMachine)
    /\ Z.land (reg m' (GR0 + grField divisionMachine)) 0xffff
       = Z.land (reg divisionMachine (GR0 + grField divisionMachine)) 0xffff
    /\ reg m' (GR0 + grField divisionMachine)
       = (if isDIVA divisionMachine
          then signed (reg divisionMachine (GR0 + grField divisionMachine))
          else reg divisionMachine (GR0 + grField divisionMachine))
    /\ (forall i, 0 <= i <= 7 -> i <> grField divisionMachine ->
        reg m' (GR0 + i) = reg divisionMachine (GR0 + i))
    /\ reg m' SP = reg divisionMachine SP
    /\ memory m' = memory divisionMachine.
Proof.
  apply (C2_division_by_zero_continues 2 divisionMachine).
  - reflexivity.
  - apply wfMemory_freshMemory. repeat constructor; discriminate.
  - right. right. split; [left; vm_compute; reflexivity | vm_compute; discriminate].
  - vm_compute. discriminate.
  - vm_compute. reflexivity.
Defined.

Lemma C5_push_pop_witness :
  (exists m1 m2,
      stepExec 4 pushPopMachine = Ok (false, None, m1)
      /\ reg m1 SP = reg pushPopMachine SP - 1
      /\ memGet (memory m1) (reg m1 SP) = eadrOf pushPopMachine
      /\ opcode m1 = 0x71 /\ grField m1 = 1
      /\ stepExec 4 m1 = Ok (false, None, m2)
      /\ reg m2 SP = reg pushPopMachine SP
      /\ reg m2 (GR0 + 1) = eadrOf pushPopMachine)
  /\ (exists pc sp m',
         stepExec 4 fullStackMachine = Ok (false, Some (StackOverflow pc sp), m'))
  /\ (exists pc sp m',
         stepExec 4 emptyStackMachine = Ok (false, Some (StackUnderflow pc sp), m')).
Proof.
  destruct C5_push_pop_stack_discipline as (Hpair & Hpush & Hpop).
  split; [|split].
  - assert (Hwf : wfMemory (memory pushPopMachine))
      by (apply wfMemory_freshMemory; repeat constructor; discriminate).
    assert (Hlen : STACK_TOP <= Z.of_nat (length (memory pushPopMachine)))
      by (unfold pushPopMachine, machineOf; cbn [memory];
          rewrite length_freshMemory; discriminate).
    destruct (Hpair 4 pushPopMachine eq_refl Hwf ltac:(discriminate) Hlen eq_refl
                ltac:(vm_compute; split; reflexivity))
      as (m1 & E1 & Hsp & Hget & Hnext).
    assert (Hm1 : opcode m1 = 0x71 /\ grField m1 = 1).
    { pose proof (PUSH_step 4 pushPopMachine eq_refl Hwf eq_refl
                    ltac:(vm_compute; reflexivity)) as P.
      rewrite P in E1.
      apply (f_equal (fun r => match r with
                               | Ok (_, _, m') => m'
                               | Panic _ => pushPopMachine
                               end)) in E1.
      cbv beta iota in E1. rewrite <- E1. vm_compute. split; reflexivity. }
    destruct Hm1 as [Hop1 Hgr1].
    destruct (Hnext Hop1 ltac:(rewrite Hgr1; discriminate)) as (m2 & E2 & Hsp2 & Hr).
    rewrite Hgr1 in Hr.
    exists m1, m2. repeat split; assumption.
  - apply (Hpush 4 fullStackMachine).
    + reflexivity.
    + apply wfMemory_freshMemory. repeat constructor; discriminate.
    + vm_compute. reflexivity.
    + vm_compute. discriminate.
  - apply (Hpop 4 emptyStackMachine).
    + reflexivity.
    + apply wfMemory_freshMemory. repeat constructor; discriminate.
    + vm_compute. reflexivity.
    + vm_compute. discriminate.
    + vm_compute. reflexivity.
Defined.

